(** * pygeoapi CKAN provider: a shallow embedding of
      [pygeoapi/provider/ckan.py] and the properties of its query
      translation, row translation and paging loop.

    Layout: Python values and the pieces of the standard library the
    provider calls ([dict], [json.dumps], [str.join], [float]); the
    provider's state and the remote service; the methods of
    [CKANServiceProvider] in the order of the source; sample remotes and
    rows; then the theorems. *)

From Stdlib Require Import ZArith Ascii String DecimalString DecimalPos DecimalZ.
From stdpp Require Import gmap strings list.

Open Scope string_scope.
Open Scope list_scope.
Open Scope Z_scope.

(** ** Exceptions and results *)

(** The exceptions the provider can raise or let through. *)
Inductive exn : Type :=
  | KeyError
  | IndexError
  | ValueError
  | TypeError
  | AttributeError
  | JSONDecodeError
  | ProviderQueryError
  | ProviderConnectionError.

(** A pure computation that may raise. *)
Inductive result (A : Type) : Type :=
  | Ok (a : A)
  | Err (e : exn).
Arguments Ok {A} a.
Arguments Err {A} e.

#[global] Instance result_ret : MRet result := fun _ a => Ok a.
#[global] Instance result_bind : MBind result := fun _ _ f m =>
  match m with
  | Ok a => f a
  | Err e => Err e
  end.

(** A list comprehension [[g(x) for x in l]] whose body may raise: the
    elements are evaluated from left to right and the first exception
    leaves the comprehension. *)
Fixpoint comprehension {A B : Type} (g : A → result B) (l : list A)
  : result (list B) :=
  match l with
  | [] => Ok []
  | x :: l' =>
      match g x with
      | Err e => Err e
      | Ok y =>
          match comprehension g l' with
          | Err e => Err e
          | Ok ys => Ok (y :: ys)
          end
      end
  end.

(** [len], as an integer. *)
Definition len {A : Type} (l : list A) : Z := Z.of_nat (length l).

(** ** Python dictionaries that keep insertion order *)

(** [d[k] = v]: an existing key keeps its position and takes the new
    value, a new key goes last. *)
Fixpoint dict_set {V : Type} (k : string) (v : V) (d : list (string * V))
  : list (string * V) :=
  match d with
  | [] => [(k, v)]
  | (k', v') :: d' =>
      if decide (k' = k) then (k', v) :: d'
      else (k', v') :: dict_set k v d'
  end.

(** [{k: v for (k, v) in items}]. *)
Definition dict_of_items {V : Type} (items : list (string * V))
  : list (string * V) :=
  fold_left (fun d kv => dict_set kv.1 kv.2 d) items [].

(** [p.update(d)]: the items of [d], in its order, are set in [p]. *)
Definition dict_update {V : Type} (p d : list (string * V))
  : list (string * V) :=
  fold_left (fun p kv => dict_set kv.1 kv.2 p) d p.

(** ** Strings *)

Definition dquote : ascii := ascii_of_nat 34.
Definition backslash : ascii := ascii_of_nat 92.

(** The quotation mark as a text of one character. *)
Definition quote_mark : string := String dquote "".

(** [sep.join(l)]. *)
Definition join (sep : string) (l : list string) : string :=
  String.concat sep l.

(** The decimal text of an integer, as [str] and [json.dumps] print it. *)
Definition str_of_int (z : Z) : string :=
  NilZero.string_of_int (Z.to_int z).

Definition hex_digit (n : N) : ascii :=
  match String.get (N.to_nat n) "0123456789abcdef" with
  | Some c => c
  | None => zero
  end.

(** One character of a JSON string, as [json.dumps] writes it with its
    default [ensure_ascii=True]: the quote and the backslash are
    escaped, the usual control characters have their short escapes, the
    printable ASCII characters stand for themselves and every other
    character becomes a [\uXXXX] escape.  A character is a code point
    below 256 here. *)
Definition escape_char (c : ascii) : string :=
  let n := N_of_ascii c in
  if (n =? 34)%N then String backslash (String dquote "")
  else if (n =? 92)%N then String backslash (String backslash "")
  else if (n =? 8)%N then String backslash "b"
  else if (n =? 12)%N then String backslash "f"
  else if (n =? 10)%N then String backslash "n"
  else if (n =? 13)%N then String backslash "r"
  else if (n =? 9)%N then String backslash "t"
  else if ((32 <=? n) && (n <=? 126))%N then String c ""
  else String backslash
         ("u00" +:+ String (hex_digit (n / 16)) (String (hex_digit (n mod 16)) "")).

Fixpoint escape (s : string) : string :=
  match s with
  | EmptyString => ""
  | String c s' => escape_char c +:+ escape s'
  end.

(** A quoted JSON string. *)
Definition json_string (s : string) : string :=
  String dquote (escape s +:+ String dquote "").

(** ** Sort items *)

(** One entry of [sortby]: a dict with the keys [property] and [order]. *)
Record sort_item : Type := SortItem {
  property : string;
  order : string
}.

(** A small instance of the float interface below, for the closed
    examples: floats restricted to integral values, written as integer
    literals. *)
Definition digit_value (c : ascii) : option Z :=
  let n := N_of_ascii c in
  if ((48 <=? n) && (n <=? 57))%N then Some (Z.of_N (n - 48)) else None.

Fixpoint digits_value (acc : Z) (s : string) : option Z :=
  match s with
  | EmptyString => Some acc
  | String c s' =>
      match digit_value c with
      | Some d => digits_value (10 * acc + d) s'
      | None => None
      end
  end.

Definition integral_of_str (s : string) : option Z :=
  match s with
  | EmptyString => None
  | String c s' =>
      if (N_of_ascii c =? 45)%N then
        match s' with
        | EmptyString => None
        | _ => Z.opp <$> digits_value 0 s'
        end
      else digits_value 0 s
  end.

(** The text of an integral float. *)
Definition integral_repr (z : Z) : string := str_of_int z +:+ ".0".

(** A text with a backspace, a tab, a line feed, a quotation mark, a
    backslash, the delete character and a Latin-1 letter between two
    plain letters, and the characters that are written for it inside a
    JSON string. *)
Definition sample_text : string :=
  "x" +:+ String (ascii_of_nat 8) (String (ascii_of_nat 9)
    (String (ascii_of_nat 10) (String dquote (String backslash
      (String (ascii_of_nat 127) (String (ascii_of_nat 233) "y")))))).

Definition sample_text_escaped : string :=
  "x" +:+ String backslash "b" +:+ String backslash "t"
      +:+ String backslash "n" +:+ String backslash quote_mark
      +:+ String backslash (String backslash "")
      +:+ String backslash "u007f" +:+ String backslash "u00e9" +:+ "y".

(** ** Reading a JSON object back

    A reader for the layout [json.dumps] writes by default: an object of
    string keys and scalar values, one space after each colon and each
    comma, strings in ASCII with escapes.  It is used to say what the
    text of a filter stands for. *)

(** A decoded scalar; a number that is not an integer is kept as its
    text. *)
Inductive jvalue : Type :=
  | JNull
  | JBool (b : bool)
  | JInt (z : Z)
  | JFloat (text : string)
  | JStr (s : string).

(** All the characters of a string pass a test. *)
Fixpoint string_forall (P : ascii → bool) (s : string) : bool :=
  match s with
  | EmptyString => true
  | String c s' => P c && string_forall P s'
  end.

(** A printable ASCII character. *)
Definition printable (c : ascii) : bool :=
  let n := N_of_ascii c in ((32 <=? n) && (n <=? 126))%N.

(** The characters of the text of a float: digits, sign, point,
    exponent, and the letters of [NaN] and [Infinity]. *)
Definition float_char (c : ascii) : bool :=
  match String.index 0 (String c "") "0123456789+-.eEInfityNa" with
  | Some _ => true
  | None => false
  end.

(** The text of a float: not empty, made of float characters, and not
    the text of an integer. *)
Definition float_token (t : string) : bool :=
  negb (String.eqb t "") && string_forall float_char t
  && match NilZero.int_of_string t with
     | Some _ => false
     | None => true
     end.

Definition hex_value (c : ascii) : option N :=
  match String.index 0 (String c "") "0123456789abcdef" with
  | Some n => Some (N.of_nat n)
  | None => None
  end.

(** The character of a [\uXXXX] escape, when it is below 256. *)
Definition hex4 (h1 h2 h3 h4 : ascii) : option ascii :=
  match hex_value h1, hex_value h2, hex_value h3, hex_value h4 with
  | Some a, Some b, Some c, Some d =>
      let n := (((a * 16 + b) * 16 + c) * 16 + d)%N in
      if (n <? 256)%N then Some (ascii_of_N n) else None
  | _, _, _, _ => None
  end.

(** The character of a two-character escape. *)
Definition unescape_short (e : ascii) : option ascii :=
  let n := N_of_ascii e in
  if (n =? 34)%N then Some dquote
  else if (n =? 92)%N then Some backslash
  else if (n =? 98)%N then Some (ascii_of_nat 8)
  else if (n =? 102)%N then Some (ascii_of_nat 12)
  else if (n =? 110)%N then Some (ascii_of_nat 10)
  else if (n =? 114)%N then Some (ascii_of_nat 13)
  else if (n =? 116)%N then Some (ascii_of_nat 9)
  else None.

Definition cons_result (a : ascii) (r : option (string * string))
  : option (string * string) :=
  match r with
  | Some (t, rest) => Some (String a t, rest)
  | None => None
  end.

(** The string that ends at the next unescaped quote, decoded, and the
    text after that quote. *)
Fixpoint read_string (s : string) : option (string * string) :=
  match s with
  | EmptyString => None
  | String c s' =>
      if Ascii.eqb c dquote then Some (EmptyString, s')
      else if Ascii.eqb c backslash then
        match s' with
        | EmptyString => None
        | String e s'' =>
            if (N_of_ascii e =? 117)%N then
              match s'' with
              | String h1 (String h2 (String h3 (String h4 s3))) =>
                  match hex4 h1 h2 h3 h4 with
                  | Some a => cons_result a (read_string s3)
                  | None => None
                  end
              | _ => None
              end
            else
              match unescape_short e with
              | Some a => cons_result a (read_string s'')
              | None => None
              end
        end
      else if printable c then cons_result c (read_string s')
      else None
  end.

(** A character of the text of an integer: a digit or the minus sign. *)
Definition int_char (c : ascii) : bool :=
  let n := N_of_ascii c in ((48 <=? n) && (n <=? 57) || (n =? 45))%N.

(** A comma or a closing brace ends a number or a literal. *)
Definition delimiter (c : ascii) : bool :=
  let n := N_of_ascii c in ((n =? 44) || (n =? 125))%N.

(** A character that can stand inside a number or a literal. *)
Definition token_char (c : ascii) : bool :=
  negb (Ascii.eqb c dquote) && negb (delimiter c) && printable c.

(** The text up to the next delimiter, and the text from it on. *)
Fixpoint read_token (s : string) : string * string :=
  match s with
  | EmptyString => (EmptyString, EmptyString)
  | String c s' =>
      if delimiter c then (EmptyString, s)
      else let (t, rest) := read_token s' in (String c t, rest)
  end.

Definition scalar_of_token (t : string) : option jvalue :=
  if String.eqb t "null" then Some JNull
  else if String.eqb t "true" then Some (JBool true)
  else if String.eqb t "false" then Some (JBool false)
  else match NilZero.int_of_string t with
       | Some d => Some (JInt (Z.of_int d))
       | None => if float_token t then Some (JFloat t) else None
       end.

Definition read_value (s : string) : option (jvalue * string) :=
  match s with
  | EmptyString => None
  | String c s' =>
      if Ascii.eqb c dquote then
        match read_string s' with
        | Some (t, rest) => Some (JStr t, rest)
        | None => None
        end
      else
        let (t, rest) := read_token s in
        match scalar_of_token t with
        | Some v => Some (v, rest)
        | None => None
        end
  end.

(** The items of an object after its opening brace, up to the closing
    brace that ends the text. *)
Fixpoint read_items (fuel : nat) (s : string) : option (list (string * jvalue)) :=
  match fuel with
  | O => None
  | S fuel' =>
      match s with
      | EmptyString => None
      | String c s1 =>
          if Ascii.eqb c dquote then
            match read_string s1 with
            | Some (k, String c1 (String c2 s3)) =>
                if (N_of_ascii c1 =? 58)%N && (N_of_ascii c2 =? 32)%N then
                  match read_value s3 with
                  | Some (v, String d EmptyString) =>
                      if (N_of_ascii d =? 125)%N then Some [(k, v)] else None
                  | Some (v, String d1 (String d2 s5)) =>
                      if (N_of_ascii d1 =? 44)%N && (N_of_ascii d2 =? 32)%N
                      then option_map (cons (k, v)) (read_items fuel' s5)
                      else None
                  | _ => None
                  end
                else None
            | _ => None
            end
          else None
      end
  end.

(** [json.loads] on the text of such an object. *)
Definition json_loads (s : string) : option (list (string * jvalue)) :=
  match s with
  | String c s' =>
      if (N_of_ascii c =? 123)%N then
        if String.eqb s' "}" then Some []
        else read_items (String.length s') s'
      else None
  | EmptyString => None
  end.

(** ** The configured projection

    [self.properties] is the list of the configuration until
    [get_fields] replaces it by a set. *)
Inductive names : Type :=
  | AsList (l : list string)
  | AsSet (s : gset string).

(** [set(p)]. *)
Definition to_set (p : names) : gset string :=
  match p with
  | AsList l => list_to_set l
  | AsSet s => s
  end.

(** The truth value of a list or a set: it is not empty. *)
Definition truthy (p : names) : bool :=
  match p with
  | AsList l => negb (bool_decide (l = []))
  | AsSet s => negb (bool_decide (s = ∅))
  end.

(** The truth value of a list. *)
Definition nonempty {A : Type} (l : list A) : bool :=
  match l with
  | [] => false
  | _ :: _ => true
  end.

(** ** Request parameters *)

(** The [params] dict of a request.  [resource_id] and [limit] are in
    every request of the provider; the other keys may be absent. *)
Record params : Type := Params {
  p_offset : option Z;
  p_limit : Z;
  p_resource_id : string;
  p_fields : option string;
  p_filters : option string;
  p_include_total : option string;
  p_sort : option string
}.

Definition set_fields (s : string) (p : params) : params :=
  Params (p_offset p) (p_limit p) (p_resource_id p) (Some s)
         (p_filters p) (p_include_total p) (p_sort p).
Definition set_filters (s : string) (p : params) : params :=
  Params (p_offset p) (p_limit p) (p_resource_id p) (p_fields p)
         (Some s) (p_include_total p) (p_sort p).
Definition set_include_total (s : string) (p : params) : params :=
  Params (p_offset p) (p_limit p) (p_resource_id p) (p_fields p)
         (p_filters p) (Some s) (p_sort p).
Definition set_sort (s : string) (p : params) : params :=
  Params (p_offset p) (p_limit p) (p_resource_id p) (p_fields p)
         (p_filters p) (p_include_total p) (Some s).

(** [params['offset'] += step]. *)
Definition add_offset (step : Z) (p : params) : result params :=
  match p_offset p with
  | Some o =>
      Ok (Params (Some (o + step)) (p_limit p) (p_resource_id p) (p_fields p)
                 (p_filters p) (p_include_total p) (p_sort p))
  | None => Err KeyError
  end.

(** [requests.codes.bad]: 400. *)
Definition codes_bad : Z := 400.

(** A result that may also be cut short by the fuel of a loop. *)
Inductive outcome (A : Type) : Type :=
  | Returned (a : A)
  | Raised (e : exn)
  | OutOfFuel.
Arguments Returned {A} a.
Arguments Raised {A} e.
Arguments OutOfFuel {A}.

Section CKAN.

(** ** Floats

    Python floats are kept abstract: the provider only converts cell
    values to floats and [json.dumps] prints them. *)
Variable pyfloat : Type.
(** [float(n)] for an integer [n].  An integer beyond the range of a
    double, on which Python raises [OverflowError], is outside this
    model: the conversion is total here. *)
Variable float_of_int : Z → pyfloat.
(** [float(s)] for a string [s]; [None] stands for [ValueError]. *)
Variable float_of_str : string → option pyfloat.
(** The text [json.dumps] prints for a float. *)
Variable float_repr : pyfloat → string.

(** ** Values *)

(** The scalar values of a JSON document: the cells of a remote row and
    the values of an equality filter. *)
Inductive value : Type :=
  | VNone
  | VBool (b : bool)
  | VInt (z : Z)
  | VFloat (x : pyfloat)
  | VStr (s : string).

(** [float(v)]. *)
Definition float (v : value) : result pyfloat :=
  match v with
  | VNone => Err TypeError
  | VBool b => Ok (float_of_int (if b then 1 else 0))
  | VInt z => Ok (float_of_int z)
  | VFloat x => Ok x
  | VStr s =>
      match float_of_str s with
      | Some x => Ok x
      | None => Err ValueError
      end
  end.

(** [json.dumps] on a scalar. *)
Definition dumps_value (v : value) : string :=
  match v with
  | VNone => "null"
  | VBool true => "true"
  | VBool false => "false"
  | VInt z => str_of_int z
  | VFloat x => float_repr x
  | VStr s => json_string s
  end.

Definition dumps_item (kv : string * value) : string :=
  json_string kv.1 +:+ ": " +:+ dumps_value kv.2.

(** [json.dumps] on a dict with string keys and scalar values, with the
    default separators. *)
Definition json_dumps (d : list (string * value)) : string :=
  "{" +:+ join ", " (map dumps_item d) +:+ "}".

(** A remote row, and the [properties] of a feature: a flat mapping. *)
Definition pop (f : gmap string value) (k : string)
  : result (value * gmap string value) :=
  match f !! k with
  | Some v => Ok (v, delete k f)
  | None => Err KeyError
  end.

(** ** Features *)

Record geometry_t : Type := Geometry {
  g_type : string;
  coordinates : list pyfloat
}.

Record feature : Type := Feature {
  f_type : string;
  f_id : value;
  f_geometry : option geometry_t;
  f_properties : gmap string value
}.

(** A feature collection; a key that is not set is [None]. *)
Record feature_collection : Type := FeatureCollection {
  fc_type : string;
  features : list feature;
  numberMatched : option Z;
  numberReturned : option Z
}.

(** ** The remote service *)

Record field_descriptor : Type := FieldDescriptor {
  fd_id : string;
  fd_rest : gmap string value
}.

(** The [result] object of a response of the expected shape. *)
Record result_body : Type := ResultBody {
  r_fields : list field_descriptor;
  r_total : Z;
  r_limit : Z;
  r_records : list (gmap string value)
}.

(** A response: its status and its body, [None] when the body is not
    JSON ([r.json()] raises [JSONDecodeError]).  A JSON body of another
    shape than the expected one, on which the code raises [KeyError], is
    outside this model: every statement about a body is about a body of
    the expected shape. *)
Record response : Type := Response {
  status_code : Z;
  json : option result_body
}.

(** The remote answers a request knowing the requests sent before:
    nothing is assumed of it. *)
Variable remote : list (string * params) → string → params → response.

(** The iteration order of a set of strings, which Python leaves
    unspecified: some enumeration of its elements. *)
Variable set_order : gset string → list string.
Hypothesis set_order_perm : ∀ s, set_order s ≡ₚ elements s.

(** ** The provider and the state of the program *)

Record provider : Type := Provider {
  data : string;
  id_field : string;
  x_field : string;
  y_field : string;
  resource_id : string;
  properties : names;
  fields : gmap string (gmap string value);
  numFeatures : option Z
}.

Definition with_properties (p : names) (s : provider) : provider :=
  Provider (data s) (id_field s) (x_field s) (y_field s) (resource_id s)
           p (fields s) (numFeatures s).
Definition with_fields (f : gmap string (gmap string value)) (s : provider)
  : provider :=
  Provider (data s) (id_field s) (x_field s) (y_field s) (resource_id s)
           (properties s) f (numFeatures s).
Definition with_numFeatures (n : Z) (s : provider) : provider :=
  Provider (data s) (id_field s) (x_field s) (y_field s) (resource_id s)
           (properties s) (fields s) (Some n).

(** The state: the provider object and the requests sent so far, the
    latest last. *)
Record world : Type := World {
  self : provider;
  sent : list (string * params)
}.

(** Stateful code that may raise. *)
Definition M (A : Type) : Type := world → outcome A * world.

#[local] Instance M_ret : MRet M := fun _ a w => (Returned a, w).
#[local] Instance M_bind : MBind M := fun _ _ f m w =>
  match m w with
  | (Returned a, w') => f a w'
  | (Raised e, w') => (Raised e, w')
  | (OutOfFuel, w') => (OutOfFuel, w')
  end.

Definition raise {A : Type} (e : exn) : M A := fun w => (Raised e, w).
Definition out_of_fuel {A : Type} : M A := fun w => (OutOfFuel, w).
Definition lift {A : Type} (r : result A) : M A :=
  match r with
  | Ok a => mret a
  | Err e => raise e
  end.
Definition get_self : M provider := fun w => (Returned (self w), w).
Definition modify_self (g : provider → provider) : M unit :=
  fun w => (Returned tt, World (g (self w)) (sent w)).

(** [s.get(url, params=params)]. *)
Definition s_get (url : string) (p : params) : M response :=
  fun w => (Returned (remote (sent w) url p), World (self w) (sent w ++ [(url, p)])).

(** [r.json()]. *)
Definition r_json (r : response) : M result_body :=
  match json r with
  | Some resp => mret resp
  | None => raise JSONDecodeError
  end.

(** ** The base class *)

Record provider_def : Type := ProviderDef {
  def_data : string;
  def_id_field : string;
  def_x_field : string;
  def_y_field : string;
  def_resource_id : string;
  def_properties : list string
}.

(** Modelled from the spec: [BaseProvider.__init__] of
    [pygeoapi.provider.base], which is not part of the sources at hand.
    It takes the endpoint, the id field, the coordinate fields and the
    optional fixed projection from the configuration, and starts with an
    empty field cache. *)
Definition BaseProvider_init (d : provider_def) : provider :=
  Provider (def_data d) (def_id_field d) (def_x_field d) (def_y_field d)
           "" (AsList (def_properties d)) ∅ None.

(** ** [CKANServiceProvider] *)

(** [{_.pop('id'): _ for _ in resp['result']['fields']}]. *)
Definition fields_of (l : list field_descriptor)
  : gmap string (gmap string value) :=
  fold_left (fun m d => <[fd_id d := fd_rest d]> m) l ∅.

Definition get_fields : M (gmap string (gmap string value)) :=
  self0 ← get_self;
  _ ← (if bool_decide (fields self0 = ∅) then
         let params0 := Params None 1 (resource_id self0) None None (Some "true") None in
         params1 ←
           (if truthy (properties self0) then
              let ps := to_set (properties self0)
                        ∪ list_to_set [id_field self0; x_field self0; y_field self0] in
              _ ← modify_self (with_properties (AsSet ps));
              mret (set_fields (join "," (set_order ps)) params0)
            else mret params0);
         r ← s_get (data self0) params1;
         match json r with
         | None => raise ProviderQueryError
         | Some resp =>
             _ ← modify_self (with_fields (fields_of (r_fields resp)));
             modify_self (with_numFeatures (r_total resp))
         end
       else mret tt);
  self1 ← get_self;
  mret (fields self1).

Definition __init__ (d : provider_def) : M unit :=
  _ ← modify_self (fun _ => BaseProvider_init d);
  _ ← modify_self (fun s =>
         Provider (data s) (id_field s) (x_field s) (y_field s)
                  (def_resource_id d) (properties s) (fields s) (numFeatures s));
  _ ← get_fields;
  mret tt.

Definition make_feature (self : provider) (f : gmap string value) (skip : bool)
  : result feature :=
  '(i, f1) ← pop f (id_field self);
  if negb skip then
    '(xv, f2) ← pop f1 (x_field self);
    x ← float xv;
    '(yv, f3) ← pop f2 (y_field self);
    y ← float yv;
    mret (Feature "Feature" i (Some (Geometry "Point" [x; y])) f3)
  else
    mret (Feature "Feature" i None f1).

Definition _make_orderby (sortby : list sort_item) : result string :=
  let lookup o :=
    if decide (o = "+") then Ok "asc"
    else if decide (o = "-") then Ok "desc"
    else Err KeyError in
  ret ← comprehension
          (fun i => d ← lookup (order i); mret (property i +:+ " " +:+ d))
          sortby;
  mret (join "," ret).

Definition _make_where (properties : list (string * value)) (bbox : list pyfloat)
  : string :=
  let p := [] in
  let p := if nonempty properties
           then dict_update p (dict_of_items properties)
           else p in
  json_dumps p.

(** The [while len(v) < hits_] loop of [_load].  [fuel] bounds the
    number of passes; a loop that needs more ends in [OutOfFuel]. *)
Fixpoint fetch_more (fuel : nat) (hits_ step : Z) (skip_geometry : bool)
    (params0 : params) (v : list feature) : M (list feature) :=
  if bool_decide (len v < hits_) then
    match fuel with
    | O => out_of_fuel
    | S fuel' =>
        params1 ← lift (add_offset step params0);
        self0 ← get_self;
        r ← s_get (data self0) params1;
        if bool_decide (status_code r = codes_bad)
        then raise ProviderConnectionError
        else
          resp ← r_json r;
          page ← lift (comprehension
                         (fun f => make_feature self0 f skip_geometry)
                         (r_records resp));
          if bool_decide (len page = 0) then mret v
          else fetch_more fuel' hits_ step skip_geometry params1 (v ++ page)
    end
  else mret v.

(** [self.numFeatures], an attribute that exists once [get_fields] has
    set it. *)
Definition get_numFeatures : M Z :=
  self0 ← get_self;
  match numFeatures self0 with
  | Some n => mret n
  | None => raise AttributeError
  end.

(** The truth value of [identifier]: it is given and not the empty
    string. *)
Definition given (identifier : option string) : option string :=
  match identifier with
  | Some "" => None
  | i => i
  end.

(** The first part of [_load]: the request parameters it builds before
    the first call. *)
Definition load_params (self0 : provider) (offset limit : Z)
    (resulttype : string) (identifier : option string) (bbox : list pyfloat)
    (properties0 : list (string * value)) (sortby : list sort_item)
    (select_properties : list string) : result params :=
  let params0 := Params (Some offset) limit (resource_id self0)
                        None None None None in
  let params1 :=
    if truthy (properties self0) || nonempty select_properties
    then set_fields
           (join "," (set_order (to_set (properties self0)
                                 ∪ list_to_set select_properties)))
           params0
    else params0 in
  match given identifier with
  | Some i =>
      let properties1 := [(id_field self0, VStr i)] in
      mret (set_filters (_make_where properties1 []) params1)
  | None =>
      let params2 :=
        if nonempty properties0 || nonempty bbox
        then set_filters (_make_where properties0 []) params1
        else params1 in
      let params3 :=
        if bool_decide (resulttype = "hits")
        then set_include_total "true" params2
        else params2 in
      if nonempty sortby
      then o ← _make_orderby sortby; mret (set_sort o params3)
      else mret params3
  end.

Definition _load (fuel : nat) (offset limit : Z) (resulttype : string)
    (identifier : option string) (bbox : list pyfloat)
    (datetime_ : option string) (properties0 : list (string * value))
    (sortby : list sort_item) (select_properties : list string)
    (skip_geometry : bool) (q : option string) : M feature_collection :=
  self0 ← get_self;
  let fc := FeatureCollection "FeatureCollection" [] None None in
  params4 ← lift (load_params self0 offset limit resulttype identifier bbox
                              properties0 sortby select_properties);
  r ← s_get (data self0) params4;
  if bool_decide (status_code r = codes_bad)
  then raise ProviderConnectionError
  else
    resp ← r_json r;
    let limit1 := r_limit resp in
    if bool_decide (resulttype = "hits") then
      mret (FeatureCollection (fc_type fc) (features fc)
                              (Some (r_total resp)) (numberReturned fc))
    else
      v ← lift (comprehension
                  (fun f => make_feature self0 f skip_geometry)
                  (r_records resp));
      let step := len v in
      n ← get_numFeatures;
      let hits_ := Z.min limit1 n in
      v' ← fetch_more fuel hits_ step skip_geometry params4 v;
      mret (FeatureCollection (fc_type fc) v'
                              (numberMatched fc) (Some (len v'))).

Definition query (fuel : nat) (offset limit : Z) (resulttype : string)
    (bbox : list pyfloat) (datetime_ : option string)
    (properties0 : list (string * value)) (sortby : list sort_item)
    (select_properties : list string) (skip_geometry : bool)
    (q : option string) : M feature_collection :=
  _load fuel offset limit resulttype None bbox datetime_ properties0
        sortby select_properties skip_geometry None.

(** [l.pop()]: the last element, or [IndexError] on an empty list. *)
Definition list_pop {A : Type} (l : list A) : result A :=
  match last l with
  | Some x => Ok x
  | None => Err IndexError
  end.

Definition get (fuel : nat) (identifier : string) : M feature :=
  fc ← _load fuel 0 10 "results" (Some identifier) [] None [] [] [] false None;
  lift (list_pop (features fc)).

(** ** Sample data: a provider, rows and remotes *)

Definition sample_row (i : Z) : gmap string value :=
  <["id" := VInt i]> (<["x" := VStr "3"]> (<["y" := VStr "4"]>
    (<["name" := VStr "foo"]> ∅))).

Definition sample_rows (start : Z) (n : nat) : list (gmap string value) :=
  map (fun k => sample_row (start + Z.of_nat k)) (seq 0 n).

Definition sample_descriptors : list field_descriptor :=
  map (fun k => FieldDescriptor k (<["type" := VStr "text"]> ∅))
      ["id"; "x"; "y"; "name"].

(** A remote over a table of [total] sample rows that honours the offset
    and the limit of a request, serves at most [cap] rows per call and
    reports [reported] of the requested limit as its limit. *)
Definition paged_remote (cap total : Z) (reported : Z → Z)
  : list (string * params) → string → params → response :=
  fun _ _ p =>
    let o := Z.max 0 (default 0 (p_offset p)) in
    let n := Z.max 0 (Z.min (Z.min (p_limit p) cap) (total - o)) in
    Response 200
      (Some (ResultBody sample_descriptors total (reported (p_limit p))
                        (sample_rows o (Z.to_nat n)))).

(** A provider as [__init__] leaves it over a table of [total] rows,
    with no configured projection. *)
Definition sample_provider (total : Z) : provider :=
  Provider "https://ckan.example/api/3/action/datastore_search"
           "id" "x" "y" "resource-1" (AsList [])
           (fields_of sample_descriptors) (Some total).


(** A remote that gives the same response to every request. *)
Definition constant_remote (r : response)
  : list (string * params) → string → params → response :=
  fun _ _ _ => r.

(** A remote that pages over a table: the rows from the offset on, at
    most the limit and at most [cap] of them; it reports the requested
    limit. *)
Definition table_remote (table : list (gmap string value)) (cap : Z)
  : list (string * params) → string → params → response :=
  fun _ _ p =>
    Response 200
      (Some (ResultBody sample_descriptors (len table) (p_limit p)
               (take (Z.to_nat (Z.min (p_limit p) cap))
                     (drop (Z.to_nat (default 0 (p_offset p))) table)))).

(** A provider before its schema is fetched. *)
Definition unfetched_provider (props : list string) : provider :=
  Provider "https://ckan.example/api/3/action/datastore_search"
           "id" "x" "y" "resource-1" (AsList props) ∅ None.

(** The response of the discovery over the sample table. *)
Definition sample_discovery : response :=
  Response 200 (Some (ResultBody sample_descriptors 50 1 (sample_rows 0 1))).

(** ** The clause builders in the words of the specification *)

(** The keys of a list of pairs in the order of their first occurrence. *)
Fixpoint first_occurrences (l : list string) : list string :=
  match l with
  | [] => []
  | k :: l' => k :: filter (λ k', k' ≠ k) (first_occurrences l')
  end.

(** The filter object: the pairs inserted in order into a map, so that
    the last value of a repeated field wins. *)
Definition filter_object (items : list (string * value)) : gmap string value :=
  fold_left (λ m kv, <[kv.1 := kv.2]> m) items ∅.

(** [buildFilter]: the JSON object string of the filter object, its keys
    in the order of insertion. *)
Definition buildFilter (items : list (string * value)) : string :=
  "{" +:+ join ", "
            (map (λ k, json_string k +:+ ": "
                       +:+ dumps_value (default VNone (filter_object items !! k)))
                 (first_occurrences (map fst items)))
      +:+ "}".

(** The decoded form of a value, and of the filter object with its
    keys in the order of insertion. *)
Definition to_jvalue (v : value) : jvalue :=
  match v with
  | VNone => JNull
  | VBool b => JBool b
  | VInt z => JInt z
  | VFloat x => JFloat (float_repr x)
  | VStr s => JStr s
  end.

Definition decoded_filter (items : list (string * value))
  : list (string * jvalue) :=
  map (λ k, (k, to_jvalue (default VNone (filter_object items !! k))))
      (first_occurrences (map fst items)).

(** [buildOrderBy]: one token per pair, in the order of the list. *)
Definition order_token (i : sort_item) : string :=
  property i +:+ " " +:+ (if decide (order i = "+") then "asc" else "desc").

Definition buildOrderBy (sortby : list sort_item) : string :=
  join "," (map order_token sortby).

Definition direction (i : sort_item) : Prop :=
  order i = "+" ∨ order i = "-".

(** ** Requests of one call

    Two parameter dicts that agree on every key but [offset]. *)
Definition same_clauses (p q : params) : Prop :=
  p_limit q = p_limit p
  ∧ p_resource_id q = p_resource_id p
  ∧ p_fields q = p_fields p
  ∧ p_filters q = p_filters p
  ∧ p_include_total q = p_include_total p
  ∧ p_sort q = p_sort p.

(** The translation of the rows of a response. *)
Definition translate (self0 : provider) (skip_geometry : bool)
    (rows : list (gmap string value)) : result (list feature) :=
  comprehension (fun f => make_feature self0 f skip_geometry) rows.

(** The state after one more request. *)
Definition after (w : world) (p : params) : world :=
  World (self w) (sent w ++ [(data (self w), p)]).

(** The requests sent between two states. *)
Definition requests_of (w w' : world) : list (string * params) :=
  drop (length (sent w)) (sent w').

(** A response that went through and carries no row. *)
Definition no_rows (r : response) : Prop :=
  status_code r ≠ codes_bad
  ∧ ∃ resp, json r = Some resp ∧ r_records resp = [].

(** A remote that answers every request, with a status other than 400
    and a JSON body, and never sends more rows than the limit of the
    request, when that limit is not negative. *)
Definition honours_limit : Prop :=
  ∀ h u p,
    status_code (remote h u p) ≠ codes_bad
    ∧ ∃ resp, json (remote h u p) = Some resp
        ∧ (0 ≤ p_limit p → len (r_records resp) ≤ p_limit p).

(** ** The ordered dictionary *)

(** ** The rows a call receives *)

(** The same parameters at another offset. *)
Definition with_offset (o : Z) (p : params) : params :=
  Params (Some o) (p_limit p) (p_resource_id p) (p_fields p)
         (p_filters p) (p_include_total p) (p_sort p).

(** The rows of a response; none when the body is not JSON. *)
Definition rows_of (r : response) : list (gmap string value) :=
  match json r with
  | Some resp => r_records resp
  | None => []
  end.

(** The responses the remote gave to the requests [new], sent in this
    order after the requests [h]. *)
Fixpoint replay (h new : list (string * params)) : list response :=
  match new with
  | [] => []
  | u :: new' => remote h u.1 u.2 :: replay (h ++ [u]) new'
  end.

(** A remote that pages honestly over a fixed table: a request at a
    valid offset is answered, with a status other than 400, by the rows
    of the table from that offset on, at most the requested limit and at
    most [cap] of them. *)
Definition honest_pager (table : list (gmap string value)) (cap : Z) : Prop :=
  ∀ h u p o,
    p_offset p = Some o → 0 ≤ o →
    status_code (remote h u p) ≠ codes_bad
    ∧ ∃ resp, json (remote h u p) = Some resp
        ∧ r_records resp
          = take (Z.to_nat (Z.min (p_limit p) cap)) (drop (Z.to_nat o) table).

Lemma filter_all {A : Type} (P : A → Prop) `{!∀ x, Decision (P x)}
    (l : list A) :
  (∀ x, P x) → filter P l = l.
Proof.
  intros HP. induction l as [|x l IH]; [done|].
  by rewrite filter_cons_True, IH.
Qed.

Lemma dict_set_fresh {V : Type} (k : string) (v : V) (d : list (string * V)) :
  k ∉ map fst d → dict_set k v d = d ++ [(k, v)].
Proof.
  induction d as [|[k' v'] d IH]; simpl; intros Hk; [done|].
  apply not_elem_of_cons in Hk as [Hne Hk].
  case_decide; [congruence|]. by rewrite IH.
Qed.

Lemma dict_set_keys {V : Type} (k : string) (v : V) (d : list (string * V)) :
  map fst (dict_set k v d)
  = if decide (k ∈ map fst d) then map fst d else map fst d ++ [k].
Proof.
  induction d as [|[k' v'] d IH]; simpl.
  - destruct (decide (k ∈ [])) as [H|H]; [|done]. by apply elem_of_nil in H.
  - destruct (decide (k' = k)) as [->|Hne]; simpl.
    + destruct (decide (k ∈ k :: map fst d)) as [H|H]; [done|].
      exfalso. apply H. left.
    + rewrite IH. destruct (decide (k ∈ map fst d)) as [Hin|Hin];
        destruct (decide (k ∈ k' :: map fst d)) as [H|H]; try done.
      * exfalso. apply H. by right.
      * apply elem_of_cons in H as [->|H]; done.
Qed.

Lemma dict_set_NoDup {V : Type} (k : string) (v : V) (d : list (string * V)) :
  NoDup (map fst d) → NoDup (map fst (dict_set k v d)).
Proof.
  intros Hd. rewrite dict_set_keys. case_decide as Hin; [done|].
  apply NoDup_app. split_and!; [done| |apply NoDup_singleton].
  intros x Hx Hx'. apply list_elem_of_singleton in Hx'. by subst.
Qed.

Lemma dict_set_to_map {V : Type} (k : string) (v : V) (d : list (string * V)) :
  (list_to_map (dict_set k v d) : gmap string V) = <[k := v]> (list_to_map d).
Proof.
  induction d as [|[k' v'] d IH]; simpl; [done|].
  destruct (decide (k' = k)) as [->|Hne]; simpl.
  - by rewrite insert_insert_eq.
  - rewrite IH. by apply insert_insert_ne.
Qed.

Lemma dict_fold_to_map {V : Type} (items d : list (string * V)) :
  (list_to_map (fold_left (λ d kv, dict_set kv.1 kv.2 d) items d) : gmap string V)
  = fold_left (λ m kv, <[kv.1 := kv.2]> m) items (list_to_map d).
Proof.
  revert d. induction items as [|[k v] items IH]; intros d; simpl; [done|].
  by rewrite IH, dict_set_to_map.
Qed.

Lemma dict_fold_NoDup {V : Type} (items d : list (string * V)) :
  NoDup (map fst d) →
  NoDup (map fst (fold_left (λ d kv, dict_set kv.1 kv.2 d) items d)).
Proof.
  revert d. induction items as [|[k v] items IH]; intros d Hd; simpl; [done|].
  by apply IH, dict_set_NoDup.
Qed.

Lemma dict_fold_keys {V : Type} (items d : list (string * V)) :
  map fst (fold_left (λ d kv, dict_set kv.1 kv.2 d) items d)
  = map fst d ++ filter (λ k, k ∉ map fst d) (first_occurrences (map fst items)).
Proof.
  revert d. induction items as [|[k v] items IH]; intros d; simpl.
  - by rewrite filter_nil, app_nil_r.
  - rewrite IH, dict_set_keys. destruct (decide (k ∈ map fst d)) as [Hin|Hin].
    + rewrite filter_cons_False by (intros H; by apply H).
      rewrite list_filter_filter. f_equal. apply list_filter_iff.
      intros x. split; [intros ?; split; [done|]|by intros [? _]].
      intros ->. done.
    + rewrite filter_cons_True by done. rewrite <- app_assoc. simpl.
      do 2 f_equal. rewrite list_filter_filter. apply list_filter_iff.
      intros x. rewrite not_elem_of_app, list_elem_of_singleton. clear. tauto.
Qed.

Lemma dict_items_of_map {V : Type} (dflt : V) (d : list (string * V)) :
  NoDup (map fst d) →
  d = map (λ k, (k, default dflt ((list_to_map d : gmap string V) !! k)))
          (map fst d).
Proof.
  induction d as [|[k v] d IH]; simpl; intros Hd; [done|].
  apply NoDup_cons in Hd as [Hk Hd].
  rewrite lookup_insert_eq. simpl. f_equal.
  rewrite (IH Hd) at 1. apply map_ext_in. intros k' Hk'.
  rewrite lookup_insert_ne; [done|].
  intros ->. apply Hk. by apply list_elem_of_In.
Qed.

Lemma dict_update_fresh {V : Type} (p d : list (string * V)) :
  NoDup (map fst (p ++ d)) → dict_update p d = p ++ d.
Proof.
  unfold dict_update. revert p.
  induction d as [|[k v] d IH]; intros p Hd; simpl.
  - by rewrite app_nil_r.
  - rewrite dict_set_fresh.
    + rewrite IH; rewrite <- app_assoc; done.
    + rewrite map_app in Hd. apply NoDup_app in Hd as (_ & Hd & _).
      intros Hk. apply (Hd k Hk). left.
Qed.

(** ** Reading back what [json.dumps] wrote *)

Lemma string_app_cons (c : ascii) (s t : string) :
  String c s +:+ t = String c (s +:+ t).
Proof. reflexivity. Qed.

Lemma string_app_assoc (s t u : string) :
  (s +:+ t) +:+ u = s +:+ (t +:+ u).
Proof.
  induction s as [|c s IH]; [reflexivity|].
  by rewrite !string_app_cons, IH.
Qed.

Lemma string_app_nil_r (s : string) : s +:+ "" = s.
Proof.
  induction s as [|c s IH]; [reflexivity|]. by rewrite string_app_cons, IH.
Qed.

Lemma string_forall_app (P : ascii → bool) (s t : string) :
  string_forall P (s +:+ t) = string_forall P s && string_forall P t.
Proof.
  induction s as [|c s IH]; [reflexivity|].
  rewrite string_app_cons. simpl. rewrite IH. by destruct (P c).
Qed.

Lemma string_forall_impl (P Q : ascii → bool) (s : string) :
  (∀ c, P c = true → Q c = true) →
  string_forall P s = true → string_forall Q s = true.
Proof.
  intros HPQ. induction s as [|c s IH]; simpl; [done|].
  intros H. apply andb_true_iff in H as [Hc Hs].
  by rewrite (HPQ c Hc), IH.
Qed.

(** One escaped character is read back as the character. *)
Lemma read_string_escape_char (c : ascii) (t : string) :
  read_string (escape_char c +:+ t) = cons_result c (read_string t).
Proof.
  destruct c as [[] [] [] [] [] [] [] []]; reflexivity.
Qed.

(** A quoted string is read back as the string. *)
Lemma read_string_escape (s rest : string) :
  read_string (escape s +:+ String dquote rest) = Some (s, rest).
Proof.
  induction s as [|c s IH]; [reflexivity|].
  simpl escape. rewrite string_app_assoc, read_string_escape_char, IH.
  reflexivity.
Qed.

(** What is written for a string is printable ASCII. *)
Lemma escape_char_printable (c : ascii) :
  string_forall printable (escape_char c) = true.
Proof.
  destruct c as [[] [] [] [] [] [] [] []]; reflexivity.
Qed.

Lemma escape_printable (s : string) :
  string_forall printable (escape s) = true.
Proof.
  induction s as [|c s IH]; [reflexivity|].
  simpl escape. by rewrite string_forall_app, escape_char_printable, IH.
Qed.

Lemma json_string_printable (s : string) :
  string_forall printable (json_string s) = true.
Proof.
  unfold json_string. simpl. by rewrite string_forall_app, escape_printable.
Qed.

Lemma int_char_token (c : ascii) :
  int_char c = true → token_char c = true ∧ float_char c = true.
Proof.
  destruct c as [[] [] [] [] [] [] [] []]; vm_compute; intros H;
    first [discriminate H | by split].
Qed.

Lemma float_char_token (c : ascii) :
  float_char c = true → token_char c = true.
Proof.
  destruct c as [[] [] [] [] [] [] [] []]; vm_compute; intros H;
    first [discriminate H | reflexivity].
Qed.

Lemma uint_chars (d : Decimal.uint) :
  string_forall int_char (NilEmpty.string_of_uint d) = true.
Proof. induction d; simpl; auto. Qed.

Lemma uint_nonempty (d : Decimal.uint) :
  d ≠ Decimal.Nil → NilEmpty.string_of_uint d ≠ "".
Proof. by destruct d. Qed.

Lemma nilzero_uint (d : Decimal.uint) :
  d ≠ Decimal.Nil → NilZero.string_of_uint d = NilEmpty.string_of_uint d.
Proof. by destruct d. Qed.

(** The text of an integer: digits after an optional minus sign, not
    empty, read back as the integer. *)
Lemma str_of_int_token (z : Z) :
  string_forall int_char (str_of_int z) = true
  ∧ str_of_int z ≠ ""
  ∧ NilZero.int_of_string (str_of_int z) = Some (Z.to_int z).
Proof.
  unfold str_of_int. split_and!.
  - destruct z as [|q|q]; simpl; [done| |].
    + rewrite nilzero_uint by apply DecimalPos.Unsigned.to_uint_nonnil.
      apply uint_chars.
    + rewrite nilzero_uint by apply DecimalPos.Unsigned.to_uint_nonnil.
      apply uint_chars.
  - destruct z as [|q|q]; simpl; [done| |done].
    rewrite nilzero_uint by apply DecimalPos.Unsigned.to_uint_nonnil.
    apply uint_nonempty, DecimalPos.Unsigned.to_uint_nonnil.
  - apply NilZero.isi; destruct z as [|q|q]; simpl; try done.
    + intros H. inversion H as [Hq].
      by apply DecimalPos.Unsigned.to_uint_nonnil in Hq.
    + intros H. inversion H as [Hq].
      by apply DecimalPos.Unsigned.to_uint_nonnil in Hq.
Qed.

Lemma read_token_app (t r : string) (c : ascii) :
  string_forall token_char t = true → delimiter c = true →
  read_token (t +:+ String c r) = (t, String c r).
Proof.
  intros Ht Hc. induction t as [|a t IH].
  - change ("" +:+ String c r) with (String c r). simpl. by rewrite Hc.
  - simpl in Ht. apply andb_true_iff in Ht as [Ha Ht].
    rewrite string_app_cons. simpl. rewrite (IH Ht).
    unfold token_char in Ha.
    destruct (delimiter a); [|done].
    by rewrite andb_false_r in Ha.
Qed.

(** A number or a literal followed by a delimiter is read as what its
    text stands for. *)
Lemma read_value_token (t r : string) (c : ascii) :
  t ≠ "" → string_forall token_char t = true → delimiter c = true →
  read_value (t +:+ String c r)
  = match scalar_of_token t with
    | Some v => Some (v, String c r)
    | None => None
    end.
Proof.
  intros Hne Ht Hc. destruct t as [|a t]; [done|].
  pose proof (read_token_app (String a t) r c Ht Hc) as Htok.
  rewrite string_app_cons in *. unfold read_value.
  simpl in Ht. apply andb_true_iff in Ht as [Ha _]. unfold token_char in Ha.
  destruct (Ascii.eqb a dquote); [done|].
  by rewrite Htok.
Qed.

Lemma scalar_of_int (z : Z) :
  scalar_of_token (str_of_int z) = Some (JInt z).
Proof.
  destruct (str_of_int_token z) as (Hc & Hne & Hi).
  unfold scalar_of_token.
  assert (Hlit : ∀ lit, string_forall int_char lit = false →
                        String.eqb (str_of_int z) lit = false).
  { intros lit Hl. apply String.eqb_neq. intros Heq.
    rewrite Heq in Hc. congruence. }
  rewrite !Hlit by reflexivity. rewrite Hi. by rewrite DecimalZ.of_to.
Qed.

Lemma scalar_of_float (t : string) :
  float_token t = true → scalar_of_token t = Some (JFloat t).
Proof.
  intros Ht. unfold scalar_of_token. pose proof Ht as Ht'.
  unfold float_token in Ht'.
  apply andb_true_iff in Ht' as [Ht' Hi].
  apply andb_true_iff in Ht' as [_ Hc].
  assert (Hlit : ∀ lit, string_forall float_char lit = false →
                        String.eqb t lit = false).
  { intros lit Hl. apply String.eqb_neq. intros Heq.
    rewrite Heq in Hc. congruence. }
  rewrite !Hlit by reflexivity.
  destruct (NilZero.int_of_string t); [done|]. by rewrite Ht.
Qed.

(** ** The equality filter *)

Lemma make_where_dict (items : list (string * value)) (bbox : list pyfloat) :
  _make_where items bbox = json_dumps (dict_of_items items).
Proof.
  unfold _make_where. destruct items as [|kv items]; [done|].
  unfold nonempty. rewrite dict_update_fresh; [done|].
  apply dict_fold_NoDup. simpl. apply NoDup_nil_2.
Qed.

(** The dict built from the pairs: the keys in the order of their first
    occurrence, each with its value in the filter object. *)
Lemma dict_of_items_spec (items : list (string * value)) :
  dict_of_items items
  = map (λ k, (k, default VNone (filter_object items !! k)))
        (first_occurrences (map fst items)).
Proof using Type.
  pose proof (dict_fold_NoDup items []
                (NoDup_nil_2 : NoDup (map fst ([] : list (string * value)))))
    as Hnd.
  fold (dict_of_items items) in Hnd.
  rewrite (dict_items_of_map VNone _ Hnd) at 1.
  unfold dict_of_items at 2. rewrite dict_fold_keys. simpl.
  rewrite filter_all by (intros x H; by apply elem_of_nil in H).
  apply map_ext. intros k. unfold dict_of_items.
  by rewrite dict_fold_to_map.
Qed.

Lemma float_token_chars (t : string) :
  float_token t = true →
  t ≠ "" ∧ string_forall token_char t = true
  ∧ string_forall printable t = true.
Proof.
  unfold float_token. intros H.
  apply andb_true_iff in H as [H _]. apply andb_true_iff in H as [Hne Hc].
  assert (Ht : string_forall token_char t = true).
  { eapply string_forall_impl; [|exact Hc]. apply float_char_token. }
  split_and!; [|done|].
  - intros ->. done.
  - eapply string_forall_impl; [|exact Ht].
    intros c Hc'. unfold token_char in Hc'.
    by apply andb_true_iff in Hc' as [_ ?].
Qed.

Lemma int_token_chars (z : Z) :
  str_of_int z ≠ "" ∧ string_forall token_char (str_of_int z) = true
  ∧ string_forall printable (str_of_int z) = true.
Proof.
  destruct (str_of_int_token z) as (Hc & Hne & _).
  assert (Ht : string_forall token_char (str_of_int z) = true).
  { eapply string_forall_impl; [|exact Hc]. intros c Hc'.
    by apply int_char_token in Hc' as [? _]. }
  split_and!; [done|done|].
  eapply string_forall_impl; [|exact Ht].
  intros c Hc'. unfold token_char in Hc'.
  by apply andb_true_iff in Hc' as [_ ?].
Qed.

(** A scalar followed by a delimiter is read back as the scalar. *)
Lemma read_value_dumps (v : value) (c : ascii) (r : string) :
  (∀ x, float_token (float_repr x) = true) →
  delimiter c = true →
  read_value (dumps_value v +:+ String c r) = Some (to_jvalue v, String c r).
Proof using Type.
  intros Hf Hc. destruct v as [|b|z|x|t]; simpl dumps_value.
  - by rewrite read_value_token.
  - destruct b; by rewrite read_value_token.
  - destruct (int_token_chars z) as (Hne & Ht & _).
    by rewrite read_value_token, scalar_of_int.
  - destruct (float_token_chars _ (Hf x)) as (Hne & Ht & _).
    by rewrite read_value_token, scalar_of_float.
  - unfold json_string. rewrite string_app_cons. unfold read_value.
    change (Ascii.eqb dquote dquote) with true. cbv iota.
    rewrite string_app_assoc, string_app_cons.
    change ("" +:+ String c r) with (String c r).
    by rewrite read_string_escape.
Qed.

Lemma dumps_value_printable (v : value) :
  (∀ x, float_token (float_repr x) = true) →
  string_forall printable (dumps_value v) = true.
Proof using Type.
  intros Hf. destruct v as [|b|z|x|t]; simpl dumps_value.
  - done.
  - by destruct b.
  - by destruct (int_token_chars z) as (_ & _ & ?).
  - by destruct (float_token_chars _ (Hf x)) as (_ & _ & ?).
  - apply json_string_printable.
Qed.

(** The text of one item, spelled out. *)
Lemma item_text (kv : string * value) (rest : string) :
  dumps_item kv +:+ rest
  = String dquote
      (escape kv.1
       +:+ String dquote
             (String (ascii_of_nat 58)
                (String (ascii_of_nat 32) (dumps_value kv.2 +:+ rest)))).
Proof using Type.
  unfold dumps_item, json_string.
  rewrite !string_app_cons, !string_app_assoc. reflexivity.
Qed.

Lemma join_two (sep x y : string) (l : list string) :
  join sep (x :: y :: l) = x +:+ sep +:+ join sep (y :: l).
Proof. reflexivity. Qed.

Lemma string_length_app (s t : string) :
  String.length (s +:+ t) = (String.length s + String.length t)%nat.
Proof.
  induction s as [|c s IH]; [reflexivity|].
  rewrite string_app_cons. simpl. by rewrite IH.
Qed.

Lemma items_length (l : list (string * value)) :
  (length l ≤ String.length (join ", " (map dumps_item l) +:+ "}"))%nat.
Proof using Type.
  induction l as [|kv l IH]; [simpl; lia|].
  destruct l as [|kv' l].
  - simpl map. change (join ", " [dumps_item kv]) with (dumps_item kv).
    rewrite item_text. simpl. lia.
  - simpl map in *. rewrite join_two, !string_app_assoc, item_text.
    rewrite string_length_app in IH.
    repeat (rewrite string_length_app || cbn [String.length length] in * ).
    lia.
Qed.

(** The items of an object are read back in order. *)
Lemma read_items_dumps (l : list (string * value)) (fuel : nat) :
  (∀ x, float_token (float_repr x) = true) →
  l ≠ [] → (length l ≤ fuel)%nat →
  read_items fuel (join ", " (map dumps_item l) +:+ "}")
  = Some (map (λ kv, (kv.1, to_jvalue kv.2)) l).
Proof using Type.
  intros Hf. revert fuel. induction l as [|kv l IH]; intros fuel Hne Hfuel;
    [done|].
  destruct fuel as [|fuel]; [simpl in Hfuel; lia|].
  destruct l as [|kv' l].
  - simpl map. change (join ", " [dumps_item kv]) with (dumps_item kv).
    rewrite item_text. cbn [read_items].
    change (Ascii.eqb dquote dquote) with true. cbv iota.
    rewrite read_string_escape.
    change (N_of_ascii (ascii_of_nat 58) =? 58)%N with true.
    change (N_of_ascii (ascii_of_nat 32) =? 32)%N with true. cbv iota.
    change "}" with (String (ascii_of_nat 125) "").
    rewrite read_value_dumps by done. reflexivity.
  - change (map dumps_item (kv :: kv' :: l))
      with (dumps_item kv :: map dumps_item (kv' :: l)).
    change (map dumps_item (kv' :: l))
      with (dumps_item kv' :: map dumps_item l) at 1.
    rewrite join_two, !string_app_assoc, item_text. cbn [read_items].
    change (Ascii.eqb dquote dquote) with true. cbv iota.
    rewrite read_string_escape.
    change (N_of_ascii (ascii_of_nat 58) =? 58)%N with true.
    change (N_of_ascii (ascii_of_nat 32) =? 32)%N with true. cbv iota.
    change (", " +:+ ?x) with (String (ascii_of_nat 44) (String (ascii_of_nat 32) x)).
    rewrite read_value_dumps by done.
    change (N_of_ascii (ascii_of_nat 44) =? 44)%N with true.
    change (N_of_ascii (ascii_of_nat 32) =? 32)%N with true. cbv iota.
    rewrite IH; [done|done|]. simpl in *. lia.
Qed.

(** [json.loads] undoes [json.dumps]. *)
Lemma json_loads_dumps (d : list (string * value)) :
  (∀ x, float_token (float_repr x) = true) →
  json_loads (json_dumps d) = Some (map (λ kv, (kv.1, to_jvalue kv.2)) d).
Proof using Type.
  intros Hf. unfold json_dumps. destruct d as [|kv d]; [reflexivity|].
  change ("{" +:+ ?x) with (String (ascii_of_nat 123) x).
  unfold json_loads.
  change (N_of_ascii (ascii_of_nat 123) =? 123)%N with true. cbv iota.
  assert (Hne : String.eqb (join ", " (map dumps_item (kv :: d)) +:+ "}") "}"
                = false).
  { destruct d as [|kv' d].
    - simpl map. change (join ", " [dumps_item kv]) with (dumps_item kv).
      by rewrite item_text.
    - simpl map. rewrite join_two, !string_app_assoc. by rewrite item_text. }
  rewrite Hne. apply read_items_dumps; [done|done|apply items_length].
Qed.

Lemma json_dumps_printable (d : list (string * value)) :
  (∀ x, float_token (float_repr x) = true) →
  string_forall printable (json_dumps d) = true.
Proof using Type.
  intros Hf. unfold json_dumps.
  rewrite !string_forall_app. simpl.
  assert (Hitem : ∀ kv, string_forall printable (dumps_item kv) = true).
  { intros kv. unfold dumps_item.
    rewrite !string_forall_app, json_string_printable, dumps_value_printable;
      done. }
  assert (H : string_forall printable (join ", " (map dumps_item d)) = true).
  { induction d as [|kv d IH]; [done|]. destruct d as [|kv' d].
    - apply Hitem.
    - simpl map in *. rewrite join_two, !string_forall_app, Hitem, IH. done. }
  by rewrite H.
Qed.

(** C7.  For every ordered list of (field, value) pairs [_make_where]
    returns the JSON object string of the map built by inserting the
    pairs in order, the last value winning for a repeated field and the
    keys written in the order of their first insertion; the empty list
    gives the two characters of the empty object.  That the string is
    the JSON encoding is said without the encoder: whenever floats print
    as number texts, reading the string back gives the fields of that
    map in the order of insertion with their values, and the string is
    printable ASCII. *)
Theorem make_where_builds_filter (items : list (string * value))
    (bbox : list pyfloat) :
  _make_where items bbox = buildFilter items
  ∧ _make_where [] bbox = "{}"
  ∧ ((∀ x, float_token (float_repr x) = true) →
     json_loads (_make_where items bbox) = Some (decoded_filter items)
     ∧ string_forall printable (_make_where items bbox) = true).
Proof using Type.
  split_and!; [|done|].
  - rewrite make_where_dict, dict_of_items_spec.
    unfold json_dumps, buildFilter. do 2 f_equal.
    rewrite map_map. reflexivity.
  - intros Hf. rewrite make_where_dict. split.
    + rewrite json_loads_dumps by done. rewrite dict_of_items_spec.
      unfold decoded_filter. rewrite map_map. reflexivity.
    + by apply json_dumps_printable.
Qed.

(** ** The sort clause *)

Lemma comprehension_ok {A B : Type} (g : A → result B) (h : A → B)
    (l : list A) :
  Forall (λ x, g x = Ok (h x)) l → comprehension g l = Ok (map h l).
Proof.
  induction 1 as [|x l Hx _ IH]; simpl; [done|]. by rewrite Hx, IH.
Qed.

Lemma comprehension_length {A B : Type} (g : A → result B) (l : list A)
    (l' : list B) :
  comprehension g l = Ok l' → length l' = length l.
Proof.
  revert l'. induction l as [|x l IH]; simpl; intros l' H.
  - by inversion H.
  - destruct (g x); [|done]. destruct (comprehension g l); [|done].
    inversion H; subst. simpl. f_equal. by apply IH.
Qed.

(** C8.  For every ordered list of (property, direction) pairs whose
    directions are [+] or [-], [_make_orderby] returns the tokens
    [property asc] and [property desc] joined by commas in the order of
    the list. *)
Theorem make_orderby_tokens (sortby : list sort_item) :
  Forall direction sortby → _make_orderby sortby = Ok (buildOrderBy sortby).
Proof.
  intros Hdir. unfold _make_orderby, buildOrderBy.
  rewrite (comprehension_ok _ order_token); [done|].
  eapply Forall_impl; [exact Hdir|]. intros i [Hi|Hi]; unfold order_token;
    rewrite Hi; done.
Qed.

(** ** The row translator *)

Lemma pop_ok (f f' : gmap string value) (k : string) (v : value) :
  pop f k = Ok (v, f') → f !! k = Some v ∧ f' = delete k f.
Proof.
  unfold pop. destruct (f !! k); [|done]. intros H. by inversion H.
Qed.

(** With [skip] set the feature keeps the whole row but the id. *)
Lemma make_feature_skip (self0 : provider) (f : gmap string value)
    (ft : feature) :
  make_feature self0 f true = Ok ft →
  f_geometry ft = None ∧ f_properties ft = delete (id_field self0) f.
Proof.
  unfold make_feature. destruct (pop f (id_field self0)) as [[i f1]|] eqn:Hi;
    simpl; [|done].
  apply pop_ok in Hi as [_ ->]. intros H. by inversion H.
Qed.

(** The id field is never among the properties. *)
Lemma make_feature_drops_id (self0 : provider) (f : gmap string value)
    (skip : bool) (ft : feature) :
  make_feature self0 f skip = Ok ft →
  f_properties ft !! id_field self0 = None.
Proof.
  unfold make_feature. destruct (pop f (id_field self0)) as [[i f1]|] eqn:Hi;
    simpl; [|done].
  apply pop_ok in Hi as [_ ->]. destruct skip; simpl.
  - intros H. inversion H; subst; simpl. apply lookup_delete_eq.
  - destruct (pop _ (x_field self0)) as [[xv f2]|] eqn:Hx; simpl; [|done].
    destruct (float xv); simpl; [|done].
    destruct (pop f2 (y_field self0)) as [[yv f3]|] eqn:Hy; simpl; [|done].
    destruct (float yv); simpl; [|done].
    apply pop_ok in Hx as [_ ->]. apply pop_ok in Hy as [_ ->].
    intros H. inversion H; subst; simpl.
    rewrite !lookup_delete. repeat case_decide; try done.
Qed.

(** With the geometry built, the coordinate fields are not among the
    properties either. *)
Lemma make_feature_drops_coordinates (self0 : provider)
    (f : gmap string value) (ft : feature) :
  make_feature self0 f false = Ok ft →
  f_properties ft !! x_field self0 = None
  ∧ f_properties ft !! y_field self0 = None.
Proof.
  unfold make_feature. destruct (pop f (id_field self0)) as [[i f1]|] eqn:Hi;
    simpl; [|done].
  destruct (pop _ (x_field self0)) as [[xv f2]|] eqn:Hx; simpl; [|done].
  destruct (float xv); simpl; [|done].
  destruct (pop f2 (y_field self0)) as [[yv f3]|] eqn:Hy; simpl; [|done].
  destruct (float yv); simpl; [|done].
  apply pop_ok in Hx as [_ ->]. apply pop_ok in Hy as [_ ->].
  intros H. inversion H; subst; simpl. split.
  - rewrite lookup_delete. case_decide; [done|]. apply lookup_delete_eq.
  - apply lookup_delete_eq.
Qed.

(** ** The paging loop *)

(** One pass of the loop, written out. *)
Lemma fetch_more_step (fuel : nat) (hits_ step : Z) (skip : bool)
    (p : params) (v : list feature) (w : world) :
  fetch_more fuel hits_ step skip p v w =
  if bool_decide (len v < hits_) then
    match fuel with
    | O => (OutOfFuel, w)
    | S fuel' =>
        match add_offset step p with
        | Err e => (Raised e, w)
        | Ok p1 =>
            let r := remote (sent w) (data (self w)) p1 in
            if bool_decide (status_code r = codes_bad)
            then (Raised ProviderConnectionError, after w p1)
            else
              match json r with
              | None => (Raised JSONDecodeError, after w p1)
              | Some resp =>
                  match translate (self w) skip (r_records resp) with
                  | Err e => (Raised e, after w p1)
                  | Ok page =>
                      if bool_decide (len page = 0)
                      then (Returned v, after w p1)
                      else fetch_more fuel' hits_ step skip p1 (v ++ page)
                                      (after w p1)
                  end
              end
        end
    end
  else (Returned v, w).
Proof.
  destruct fuel as [|fuel']; simpl; case_bool_decide; try done.
  unfold mbind, M_bind, lift, get_self, s_get, r_json, raise, translate, after.
  destruct (add_offset step p) as [p1|e]; simpl; [|done].
  case_bool_decide; [done|].
  destruct (json _) as [resp|]; simpl; [|done].
  destruct (comprehension _ _) as [page|e]; simpl; [|done].
  by case_bool_decide.
Qed.

Lemma same_clauses_refl (p : params) : same_clauses p p.
Proof. by repeat split. Qed.

Lemma same_clauses_trans (p q r : params) :
  same_clauses p q → same_clauses q r → same_clauses p r.
Proof.
  unfold same_clauses. intros (?&?&?&?&?&?) (?&?&?&?&?&?).
  repeat split; congruence.
Qed.

Lemma add_offset_same (step : Z) (p p1 : params) :
  add_offset step p = Ok p1 → same_clauses p p1.
Proof.
  unfold add_offset. destruct (p_offset p); [|done].
  intros H. inversion H. by repeat split.
Qed.

Lemma with_offset_twice (o o' : Z) (p : params) :
  with_offset o (with_offset o' p) = with_offset o p.
Proof. done. Qed.

Lemma with_offset_same (o : Z) (p : params) :
  p_offset p = Some o → with_offset o p = p.
Proof. destruct p. simpl. by intros ->. Qed.

Lemma add_offset_with (step o : Z) (p : params) :
  p_offset p = Some o → add_offset step p = Ok (with_offset (o + step) p).
Proof. unfold add_offset. by intros ->. Qed.

Lemma len_app {A : Type} (l k : list A) : len (l ++ k) = len l + len k.
Proof. unfold len. rewrite length_app. lia. Qed.

Lemma len_nonneg {A : Type} (l : list A) : 0 ≤ len l.
Proof. unfold len. lia. Qed.

Lemma len_zero {A : Type} (l : list A) : len l = 0 → l = [].
Proof. destruct l; [done|]. unfold len. simpl. lia. Qed.

Lemma translate_length (self0 : provider) (skip : bool)
    (rows : list (gmap string value)) (page : list feature) :
  translate self0 skip rows = Ok page → len page = len rows.
Proof.
  intros H. unfold len. f_equal. by eapply comprehension_length.
Qed.

(** The loop leaves the provider as it is and only adds requests that
    differ from the first one by their offset, at most one per row that
    is missing to reach [hits_]. *)
Lemma fetch_more_frame (fuel : nat) (hits_ step : Z) (skip : bool)
    (p : params) (v : list feature) (w : world) :
  self (fetch_more fuel hits_ step skip p v w).2 = self w
  ∧ ∃ new, sent (fetch_more fuel hits_ step skip p v w).2 = sent w ++ new
      ∧ Forall (λ u, u.1 = data (self w) ∧ same_clauses p u.2) new
      ∧ Z.of_nat (length new) ≤ Z.max 0 (hits_ - len v).
Proof.
  revert p v w. induction fuel as [|fuel IH]; intros p v w;
    rewrite fetch_more_step.
  - case_bool_decide; simpl; (split; [done|]); exists [];
      rewrite app_nil_r; simpl; split_and!; try done; lia.
  - assert (Hnil : self w = self w
      ∧ ∃ new, sent w = sent w ++ new
          ∧ Forall (λ u, u.1 = data (self w) ∧ same_clauses p u.2) new
          ∧ Z.of_nat (length new) ≤ Z.max 0 (hits_ - len v)).
    { split; [done|]. exists []. rewrite app_nil_r. simpl.
      split_and!; try done; lia. }
    case_bool_decide as Hlt; [|done].
    destruct (add_offset step p) as [p1|e] eqn:Hp1; [|done].
    apply add_offset_same in Hp1.
    assert (Hone : self (after w p1) = self w
      ∧ ∃ new, sent (after w p1) = sent w ++ new
          ∧ Forall (λ u, u.1 = data (self w) ∧ same_clauses p u.2) new
          ∧ Z.of_nat (length new) ≤ Z.max 0 (hits_ - len v)).
    { split; [done|]. exists [(data (self w), p1)]. simpl.
      split_and!; [done| |lia]. by constructor. }
    simpl. case_bool_decide; [done|].
    destruct (json _) as [resp|]; [|done].
    destruct (translate _ _ _) as [page|e] eqn:Hpage; [|done].
    case_bool_decide as Hz; [done|].
    destruct (IH p1 (v ++ page) (after w p1)) as (Hself & new & Hsent & Hall & Hlen).
    split; [by rewrite Hself|].
    exists ((data (self w), p1) :: new). rewrite Hsent. simpl.
    rewrite <- app_assoc. simpl. split_and!; [done| |].
    + constructor; [done|]. eapply Forall_impl; [exact Hall|].
      simpl. intros u [? ?]. split; [done|].
      by eapply same_clauses_trans.
    + rewrite len_app in Hlen. pose proof (len_nonneg page). lia.
Qed.

(** With one unit of fuel per missing row the loop comes to an end. *)
Lemma fetch_more_terminates (fuel : nat) (hits_ step : Z) (skip : bool)
    (p : params) (v : list feature) (w : world) :
  hits_ - len v ≤ Z.of_nat fuel →
  (fetch_more fuel hits_ step skip p v w).1 ≠ OutOfFuel.
Proof.
  revert p v w. induction fuel as [|fuel IH]; intros p v w Hfuel;
    rewrite fetch_more_step.
  - case_bool_decide; [lia|done].
  - case_bool_decide as Hlt; [|done].
    destruct (add_offset step p) as [p1|e]; [|done].
    simpl. case_bool_decide; [done|].
    destruct (json _) as [resp|]; [|done].
    destruct (translate _ _ _) as [page|e] eqn:Hpage; [|done].
    case_bool_decide as Hz; [done|].
    apply IH. rewrite len_app. pose proof (len_nonneg page). lia.
Qed.

(** More fuel than needed changes nothing. *)
Lemma fetch_more_fuel (fuel fuel' : nat) (hits_ step : Z) (skip : bool)
    (p : params) (v : list feature) (w : world) :
  (fetch_more fuel hits_ step skip p v w).1 ≠ OutOfFuel →
  (fuel ≤ fuel')%nat →
  fetch_more fuel' hits_ step skip p v w = fetch_more fuel hits_ step skip p v w.
Proof.
  revert fuel' p v w. induction fuel as [|fuel IH]; intros fuel' p v w;
    rewrite (fetch_more_step fuel'), fetch_more_step.
  - case_bool_decide; [done|]. by destruct fuel'.
  - intros Hout Hle. destruct fuel' as [|fuel']; [lia|].
    case_bool_decide as Hlt; [|done].
    destruct (add_offset step p) as [p1|e]; [|done].
    simpl in *. case_bool_decide; [done|].
    destruct (json _) as [resp|]; [|done].
    destruct (translate _ _ _) as [page|e] eqn:Hpage; [|done].
    case_bool_decide as Hz; [done|].
    apply IH; [done|lia].
Qed.

(** When the loop returns, the features it was given come first, and it
    stopped either because the target is reached or because the last
    call brought no row. *)
Lemma fetch_more_returned (fuel : nat) (hits_ step : Z) (skip : bool)
    (p : params) (v v' : list feature) (w : world) :
  (fetch_more fuel hits_ step skip p v w).1 = Returned v' →
  (∃ extra, v' = v ++ extra)
  ∧ (hits_ ≤ len v'
     ∨ ∃ h q resp,
         sent (fetch_more fuel hits_ step skip p v w).2 = h ++ [(data (self w), q)]
         ∧ (length (sent w) ≤ length h)%nat
         ∧ json (remote h (data (self w)) q) = Some resp
         ∧ r_records resp = []).
Proof.
  revert p v w. induction fuel as [|fuel IH]; intros p v w;
    rewrite fetch_more_step.
  - case_bool_decide; simpl; [done|]. intros Hret; inversion Hret; subst.
    split; [exists []; by rewrite app_nil_r|]. left. lia.
  - case_bool_decide as Hlt.
    2:{ simpl. intros Hret; inversion Hret; subst.
        split; [exists []; by rewrite app_nil_r|]. left. lia. }
    destruct (add_offset step p) as [p1|e]; [|done].
    simpl. case_bool_decide; [done|].
    destruct (json _) as [resp|] eqn:Hjson; [|done].
    destruct (translate _ _ _) as [page|e] eqn:Hpage; [|done].
    case_bool_decide as Hz.
    + simpl. intros Hret; inversion Hret; subst.
      split; [exists []; by rewrite app_nil_r|]. right.
      exists (sent w), p1, resp. split_and!; try done.
      apply translate_length in Hpage. rewrite Hz in Hpage.
      symmetry in Hpage. by apply len_zero in Hpage.
    + intros Hret. destruct (IH p1 (v ++ page) (after w p1) Hret) as [[extra ->] Hstop].
      split; [exists (page ++ extra); by rewrite app_assoc|].
      destruct Hstop as [Hstop|(h & q & resp' & Hh & Hlen & Hj & Hr)]; [by left|].
      right. exists h, q, resp'. simpl in *. split_and!; try done.
      rewrite length_app in Hlen. lia.
Qed.

(** ** [_load] *)

(** [_load], written out. *)
Lemma load_step (fuel : nat) (offset limit : Z) (resulttype : string)
    (identifier : option string) (bbox : list pyfloat)
    (datetime_ : option string) (properties0 : list (string * value))
    (sortby : list sort_item) (select_properties : list string)
    (skip : bool) (q : option string) (w : world) :
  _load fuel offset limit resulttype identifier bbox datetime_ properties0
        sortby select_properties skip q w =
  match load_params (self w) offset limit resulttype identifier bbox
                    properties0 sortby select_properties with
  | Err e => (Raised e, w)
  | Ok p4 =>
      let r := remote (sent w) (data (self w)) p4 in
      if bool_decide (status_code r = codes_bad)
      then (Raised ProviderConnectionError, after w p4)
      else
        match json r with
        | None => (Raised JSONDecodeError, after w p4)
        | Some resp =>
            if bool_decide (resulttype = "hits")
            then (Returned (FeatureCollection "FeatureCollection" []
                              (Some (r_total resp)) None), after w p4)
            else
              match translate (self w) skip (r_records resp) with
              | Err e => (Raised e, after w p4)
              | Ok v =>
                  match numFeatures (self w) with
                  | None => (Raised AttributeError, after w p4)
                  | Some n =>
                      match fetch_more fuel (Z.min (r_limit resp) n) (len v)
                                       skip p4 v (after w p4) with
                      | (Returned v', w') =>
                          (Returned (FeatureCollection "FeatureCollection" v'
                                       None (Some (len v'))), w')
                      | (Raised e, w') => (Raised e, w')
                      | (OutOfFuel, w') => (OutOfFuel, w')
                      end
                  end
              end
        end
  end.
Proof.
  unfold _load, mbind, M_bind, lift, get_self, s_get, r_json, raise,
    get_numFeatures, translate, after.
  simpl. destruct (load_params _ _ _ _ _ _ _ _ _) as [p4|e]; simpl; [|done].
  case_bool_decide; [done|].
  destruct (json _) as [resp|]; simpl; [|done].
  case_bool_decide; [done|].
  destruct (comprehension _ _) as [v|e]; simpl; [|done].
  unfold mbind, M_bind. simpl.
  destruct (numFeatures (self w)) as [n|]; simpl; [|done].
  by destruct (fetch_more _ _ _ _ _ _ _) as [[v'|e|] w'].
Qed.

Lemma requests_of_app (w w' : world) (new : list (string * params)) :
  sent w' = sent w ++ new → requests_of w w' = new.
Proof. intros H. unfold requests_of. rewrite H. apply drop_app_length. Qed.

Lemma requests_of_after (w : world) (p : params) :
  requests_of w (after w p) = [(data (self w), p)].
Proof. by apply requests_of_app. Qed.

Lemma requests_of_refl (w : world) : requests_of w w = [].
Proof. apply requests_of_app. by rewrite app_nil_r. Qed.

(** [_load] leaves the provider as it is; it sends nothing when the
    parameters cannot be built, and otherwise the first request followed
    by requests that differ from it by their offset only, at most one per
    row missing after the first page. *)
Lemma load_frame (fuel : nat) (offset limit : Z) (resulttype : string)
    (identifier : option string) (bbox : list pyfloat)
    (datetime_ : option string) (properties0 : list (string * value))
    (sortby : list sort_item) (select_properties : list string)
    (skip : bool) (q : option string) (w : world) :
  let r := _load fuel offset limit resulttype identifier bbox datetime_
                 properties0 sortby select_properties skip q w in
  self r.2 = self w
  ∧ match load_params (self w) offset limit resulttype identifier bbox
                      properties0 sortby select_properties with
    | Err e => r = (Raised e, w)
    | Ok p4 =>
        ∃ new, sent r.2 = sent w ++ (data (self w), p4) :: new
          ∧ Forall (λ u, u.1 = data (self w) ∧ same_clauses p4 u.2) new
    end.
Proof.
  intros r. subst r. rewrite load_step.
  destruct (load_params _ _ _ _ _ _ _ _ _) as [p4|e]; [|done].
  assert (Hone : ∀ o : outcome feature_collection,
    self (o, after w p4).2 = self w
    ∧ ∃ new, sent (o, after w p4).2 = sent w ++ (data (self w), p4) :: new
        ∧ Forall (λ u, u.1 = data (self w) ∧ same_clauses p4 u.2) new).
  { intros o. split; [done|]. by exists []. }
  simpl. case_bool_decide; [apply Hone|].
  destruct (json _) as [resp|]; [|apply Hone].
  case_bool_decide; [apply Hone|].
  destruct (translate _ _ _) as [v|e]; [|apply Hone].
  destruct (numFeatures (self w)) as [n|]; [|apply Hone].
  pose proof (fetch_more_frame fuel (Z.min (r_limit resp) n) (len v) skip
                p4 v (after w p4)) as (Hself & new & Hsent & Hall & _).
  destruct (fetch_more _ _ _ _ _ _ _) as [[v'|e|] w']; simpl in *;
    (split; [done|]); exists new; rewrite Hsent, <- app_assoc; done.
Qed.

(** The clauses of the first request. *)
Lemma load_params_clauses (self0 : provider) (offset limit : Z)
    (resulttype : string) (identifier : option string) (bbox : list pyfloat)
    (properties0 : list (string * value)) (sortby : list sort_item)
    (select_properties : list string) (p : params) :
  load_params self0 offset limit resulttype identifier bbox properties0
              sortby select_properties = Ok p →
  p_offset p = Some offset
  ∧ p_limit p = limit
  ∧ p_fields p =
      (if truthy (properties self0) || nonempty select_properties
       then Some (join "," (set_order (to_set (properties self0)
                                       ∪ list_to_set select_properties)))
       else None)
  ∧ p_filters p =
      match given identifier with
      | Some i => Some (_make_where [(id_field self0, VStr i)] [])
      | None =>
          if nonempty properties0 || nonempty bbox
          then Some (_make_where properties0 [])
          else None
      end.
Proof.
  unfold load_params. destruct (given identifier) as [i|].
  - intros H. inversion H; subst; simpl.
    by destruct (truthy _ || nonempty _).
  - destruct (nonempty sortby).
    + destruct (_make_orderby sortby) as [o|e]; simpl; [|done].
      intros H. inversion H; subst; simpl.
      by destruct (truthy _ || nonempty _), (nonempty properties0 || nonempty bbox),
        (bool_decide (resulttype = "hits")).
    + intros H. inversion H; subst; simpl.
      by destruct (truthy _ || nonempty _), (nonempty properties0 || nonempty bbox),
        (bool_decide (resulttype = "hits")).
Qed.

(** ** [query]: the two counters *)

(** C5.  In hits mode the collection [query] returns has no feature,
    carries the total of the response as [numberMatched] and no
    [numberReturned], after a single request, and it is returned whenever
    the first response goes through; in results mode the collection
    carries [numberReturned], the length of its features, and no
    [numberMatched]; no returned collection carries both counters. *)
Theorem query_counters (fuel : nat) (offset limit : Z) (resulttype : string)
    (bbox : list pyfloat) (datetime_ : option string)
    (properties0 : list (string * value)) (sortby : list sort_item)
    (select_properties : list string) (skip : bool) (q : option string)
    (w : world) :
  let r := query fuel offset limit resulttype bbox datetime_ properties0
                 sortby select_properties skip q w in
  (resulttype = "hits" →
     (∀ fc, r.1 = Returned fc →
        features fc = [] ∧ numberReturned fc = None
        ∧ ∃ p resp, r.2 = after w p
            ∧ json (remote (sent w) (data (self w)) p) = Some resp
            ∧ numberMatched fc = Some (r_total resp))
     ∧ (∀ p resp,
          load_params (self w) offset limit resulttype None bbox properties0
                      sortby select_properties = Ok p →
          status_code (remote (sent w) (data (self w)) p) ≠ codes_bad →
          json (remote (sent w) (data (self w)) p) = Some resp →
          r = (Returned (FeatureCollection "FeatureCollection" []
                           (Some (r_total resp)) None), after w p)))
  ∧ (resulttype ≠ "hits" →
     ∀ fc, r.1 = Returned fc →
       numberMatched fc = None ∧ numberReturned fc = Some (len (features fc)))
  ∧ (∀ fc, r.1 = Returned fc →
       ¬ (is_Some (numberMatched fc) ∧ is_Some (numberReturned fc))).
Proof.
  intros r.
  assert (Hhits : resulttype = "hits" →
    ∀ fc, r.1 = Returned fc →
      features fc = [] ∧ numberReturned fc = None
      ∧ ∃ p resp, r.2 = after w p
          ∧ json (remote (sent w) (data (self w)) p) = Some resp
          ∧ numberMatched fc = Some (r_total resp)).
  { intros Hrt fc. subst r. unfold query. rewrite load_step.
    destruct (load_params _ _ _ _ _ _ _ _ _) as [p4|e]; [|done].
    simpl. case_bool_decide; [done|].
    destruct (json _) as [resp|] eqn:Hjson; [|done].
    rewrite bool_decide_eq_true_2 by done. simpl.
    intros Hret; inversion Hret; subst; simpl. split_and!; try done.
    by exists p4, resp. }
  assert (Hres : resulttype ≠ "hits" →
    ∀ fc, r.1 = Returned fc →
      numberMatched fc = None ∧ numberReturned fc = Some (len (features fc))).
  { intros Hrt fc. subst r. unfold query. rewrite load_step.
    destruct (load_params _ _ _ _ _ _ _ _ _) as [p4|e]; [|done].
    simpl. case_bool_decide; [done|].
    destruct (json _) as [resp|] eqn:Hjson; [|done].
    rewrite bool_decide_eq_false_2 by done.
    destruct (translate _ _ _) as [v|e]; [|done].
    destruct (numFeatures (self w)) as [n|]; [|done].
    destruct (fetch_more _ _ _ _ _ _ _) as [[v'|e|] w']; simpl; try done.
    intros Hret; inversion Hret; subst; simpl. done. }
  split_and!; [|exact Hres|].
  - intros Hrt. split; [by apply Hhits|].
    intros p resp Hp Hstatus Hjson. subst r. unfold query.
    rewrite load_step, Hp. simpl.
    rewrite bool_decide_eq_false_2 by done. rewrite Hjson.
    by rewrite bool_decide_eq_true_2 by done.
  - intros fc Hfc [Hm Hr]. destruct (decide (resulttype = "hits")) as [Hrt|Hrt].
    + destruct (Hhits Hrt fc Hfc) as (_ & Hnone & _). rewrite Hnone in Hr.
      by destruct Hr.
    + destruct (Hres Hrt fc Hfc) as (Hnone & _). rewrite Hnone in Hm.
      by destruct Hm.
Qed.

(** ** [query]: the bounding box and the filters clause *)

(** C9.  Every request of a query carries the filters clause built from
    the equality properties alone when there are properties or a bounding
    box, and none otherwise; so whenever two queries that differ in their
    bounding box both send a filters clause, it is the same string, the
    encoding of the properties. *)
Theorem query_filters_ignore_bbox (fuel : nat) (offset limit : Z)
    (resulttype : string) (bbox : list pyfloat) (datetime_ : option string)
    (properties0 : list (string * value)) (sortby : list sort_item)
    (select_properties : list string) (skip : bool) (q : option string)
    (w : world) :
  let sent_by b w0 :=
    requests_of w0 (query fuel offset limit resulttype b datetime_ properties0
                          sortby select_properties skip q w0).2 in
  Forall (λ u, p_filters u.2 =
               if nonempty properties0 || nonempty bbox
               then Some (_make_where properties0 [])
               else None)
         (sent_by bbox w)
  ∧ ∀ bbox' w' u u' s s',
      u ∈ sent_by bbox w → u' ∈ sent_by bbox' w' →
      p_filters u.2 = Some s → p_filters u'.2 = Some s' →
      s = s' ∧ s = _make_where properties0 bbox.
Proof.
  intros sent_by.
  assert (Hall : ∀ b w0,
    Forall (λ u, p_filters u.2 =
                 if nonempty properties0 || nonempty b
                 then Some (_make_where properties0 [])
                 else None)
           (sent_by b w0)).
  { intros b w0. subst sent_by. simpl. unfold query.
    pose proof (load_frame fuel offset limit resulttype None b datetime_
                  properties0 sortby select_properties skip None w0) as [_ Hl].
    simpl in Hl.
    destruct (load_params _ _ _ _ _ _ _ _ _) as [p4|e] eqn:Hp.
    - destruct Hl as (new & Hsent & Hnew).
      rewrite (requests_of_app _ _ _ Hsent).
      apply load_params_clauses in Hp as (_ & _ & _ & Hf). simpl in Hf.
      constructor; [done|]. eapply Forall_impl; [exact Hnew|].
      simpl. intros u [_ (_ & _ & _ & Hu & _)]. by rewrite Hu.
    - rewrite Hl. simpl. by rewrite requests_of_refl. }
  split; [apply Hall|].
  intros bbox' w' u u' s s' Hu Hu' Hs Hs'.
  pose proof (Hall bbox w) as H1. pose proof (Hall bbox' w') as H2.
  rewrite Forall_forall in H1, H2.
  specialize (H1 u Hu). specialize (H2 u' Hu'). simpl in *.
  rewrite Hs in H1. rewrite Hs' in H2.
  destruct (nonempty properties0 || nonempty bbox); [|done].
  destruct (nonempty properties0 || nonempty bbox'); [|done].
  rewrite !make_where_dict in *. split; congruence.
Qed.

(** ** Schema discovery and the projection *)


(** Construction runs the discovery on an empty cache: a configured,
    non-empty projection is widened before the provider is first used. *)
Lemma init_widens_projection (d : provider_def) (w : world) :
  def_properties d ≠ [] →
  properties (self (__init__ d w).2)
  = AsSet (list_to_set (def_properties d)
           ∪ list_to_set [def_id_field d; def_x_field d; def_y_field d]).
Proof.
  intros Hd. unfold __init__, get_fields, mbind, M_bind, get_self,
    modify_self, s_get, raise, mret, M_ret. simpl.
  rewrite bool_decide_eq_true_2 by done.
  rewrite bool_decide_eq_false_2 by done. simpl.
  by destruct (json _).
Qed.


(** ** Termination of the paging loop *)

(** Once a call of the loop has brought no row, no request follows. *)
Lemma fetch_more_stops_on_empty (fuel : nat) (hits_ step : Z) (skip : bool)
    (p : params) (v : list feature) (w : world)
    (h rest : list (string * params)) (q : params) (resp : result_body) :
  sent (fetch_more fuel hits_ step skip p v w).2
    = h ++ (data (self w), q) :: rest →
  (length (sent w) ≤ length h)%nat →
  json (remote h (data (self w)) q) = Some resp →
  r_records resp = [] →
  rest = [].
Proof.
  revert p v w. induction fuel as [|fuel IH]; intros p v w;
    rewrite fetch_more_step; intros Hsent Hlen Hjson Hrows.
  - assert (Hw : sent w = h ++ (data (self w), q) :: rest)
      by (by case_bool_decide).
    apply (f_equal length) in Hw. rewrite length_app in Hw. simpl in Hw. lia.
  - assert (Hw : sent w = h ++ (data (self w), q) :: rest → rest = []).
    { intros Hw. apply (f_equal length) in Hw. rewrite length_app in Hw.
      simpl in Hw. lia. }
    assert (Hone : ∀ p1, sent (after w p1) = h ++ (data (self w), q) :: rest →
                         rest = []).
    { intros p1 Hw1. apply (f_equal length) in Hw1. simpl in Hw1.
      rewrite !length_app in Hw1. simpl in Hw1.
      destruct rest; [done|]. simpl in Hw1. lia. }
    case_bool_decide as Hlt; [|by apply Hw].
    destruct (add_offset step p) as [p1|e]; [|by apply Hw].
    simpl in Hsent. case_bool_decide; [by apply (Hone p1)|].
    destruct (json (remote (sent w) _ p1)) as [resp1|] eqn:Hj1;
      [|by apply (Hone p1)].
    destruct (translate _ _ _) as [page|e] eqn:Hpage; [|by apply (Hone p1)].
    case_bool_decide as Hz; [by apply (Hone p1)|].
    destruct (decide (length h = length (sent w))) as [Heq|Hne].
    + exfalso.
      pose proof (fetch_more_frame fuel hits_ step skip p1 (v ++ page)
                    (after w p1)) as (_ & new & Hnew & _).
      rewrite Hsent in Hnew. simpl in Hnew. rewrite <- app_assoc in Hnew.
      apply app_inj_1 in Hnew as [-> Hnew]; [|done].
      simpl in Hnew. inversion Hnew; subst.
      rewrite Hjson in Hj1. inversion Hj1; subst.
      rewrite Hrows in Hpage. simpl in Hpage. inversion Hpage; subst.
      by apply Hz.
    + apply (IH p1 (v ++ page) (after w p1)); try done.
      simpl. rewrite length_app. simpl. lia.
Qed.

(** C4.  The loop of [_load] terminates: for every remote, some amount
    of fuel is enough for [_load] to end, and once the first response is
    in, one unit of fuel per row missing to reach [target], the minimum
    of the limit that response reports and the cached total, is enough.
    The loop sends at most that many requests; it sends none when the
    first page already reaches the target, and more generally never
    starts a pass once the accumulated count has reached it; when the
    features are returned, the target is reached or the last call
    brought no row; and a call of the loop that brings no row is the
    last one. *)
Theorem load_loop_terminates (offset limit : Z) (resulttype : string)
    (identifier : option string) (bbox : list pyfloat)
    (datetime_ : option string) (properties0 : list (string * value))
    (sortby : list sort_item) (select_properties : list string)
    (skip : bool) (q : option string) (w : world) :
  let run fuel := _load fuel offset limit resulttype identifier bbox datetime_
                        properties0 sortby select_properties skip q w in
  (∃ n : nat, ∀ fuel, (n ≤ fuel)%nat → (run fuel).1 ≠ OutOfFuel)
  ∧ (∀ fuel p4 resp v n,
       load_params (self w) offset limit resulttype identifier bbox
                   properties0 sortby select_properties = Ok p4 →
       status_code (remote (sent w) (data (self w)) p4) ≠ codes_bad →
       json (remote (sent w) (data (self w)) p4) = Some resp →
       resulttype ≠ "hits" →
       translate (self w) skip (r_records resp) = Ok v →
       numFeatures (self w) = Some n →
       let target := Z.min (r_limit resp) n in
       (target - len v ≤ Z.of_nat fuel → (run fuel).1 ≠ OutOfFuel)
       ∧ Z.of_nat (length (requests_of w (run fuel).2))
           ≤ 1 + Z.max 0 (target - len v)
       ∧ (target ≤ len v →
          run fuel = (Returned (FeatureCollection "FeatureCollection" v None
                                  (Some (len v))), after w p4))
       ∧ (∀ fc, (run fuel).1 = Returned fc →
            target ≤ len (features fc)
            ∨ ∃ h q' resp',
                sent (run fuel).2 = h ++ [(data (self w), q')]
                ∧ (length (sent w) < length h)%nat
                ∧ json (remote h (data (self w)) q') = Some resp'
                ∧ r_records resp' = []))
  ∧ (∀ fuel h q' rest resp,
       sent (run fuel).2 = h ++ (data (self w), q') :: rest →
       (length (sent w) < length h)%nat →
       json (remote h (data (self w)) q') = Some resp →
       r_records resp = [] →
       rest = [])
  ∧ (∀ fuel hits_ step p v w0,
       hits_ ≤ len v → fetch_more fuel hits_ step skip p v w0 = (Returned v, w0)).
Proof.
  intros run.
  assert (Hfirst : ∀ fuel p4 resp v n,
    load_params (self w) offset limit resulttype identifier bbox
                properties0 sortby select_properties = Ok p4 →
    status_code (remote (sent w) (data (self w)) p4) ≠ codes_bad →
    json (remote (sent w) (data (self w)) p4) = Some resp →
    resulttype ≠ "hits" →
    translate (self w) skip (r_records resp) = Ok v →
    numFeatures (self w) = Some n →
    run fuel =
      match fetch_more fuel (Z.min (r_limit resp) n) (len v) skip p4 v
                       (after w p4) with
      | (Returned v', w') =>
          (Returned (FeatureCollection "FeatureCollection" v' None
                       (Some (len v'))), w')
      | (Raised e, w') => (Raised e, w')
      | (OutOfFuel, w') => (OutOfFuel, w')
      end).
  { intros fuel p4 resp v n Hp Hst Hj Hrt Hv Hn. subst run. simpl.
    rewrite load_step, Hp. simpl.
    rewrite bool_decide_eq_false_2 by done. rewrite Hj.
    rewrite bool_decide_eq_false_2 by done. by rewrite Hv, Hn. }
  assert (Hfuel : ∀ fuel p4 resp v n,
    load_params (self w) offset limit resulttype identifier bbox
                properties0 sortby select_properties = Ok p4 →
    status_code (remote (sent w) (data (self w)) p4) ≠ codes_bad →
    json (remote (sent w) (data (self w)) p4) = Some resp →
    resulttype ≠ "hits" →
    translate (self w) skip (r_records resp) = Ok v →
    numFeatures (self w) = Some n →
    Z.min (r_limit resp) n - len v ≤ Z.of_nat fuel →
    (run fuel).1 ≠ OutOfFuel).
  { intros fuel p4 resp v n Hp Hst Hj Hrt Hv Hn Hle.
    rewrite (Hfirst fuel p4 resp v n) by done.
    pose proof (fetch_more_terminates fuel (Z.min (r_limit resp) n) (len v)
                  skip p4 v (after w p4) Hle) as Hterm.
    by destruct (fetch_more _ _ _ _ _ _ _) as [[v'|e|] w']. }
  split_and!.
  - destruct (load_params (self w) offset limit resulttype identifier bbox
                properties0 sortby select_properties) as [p4|e] eqn:Hp.
    2:{ exists 0%nat. intros fuel _. subst run. simpl.
        by rewrite load_step, Hp. }
    destruct (decide (status_code (remote (sent w) (data (self w)) p4)
                      = codes_bad)) as [Hst|Hst].
    { exists 0%nat. intros fuel _. subst run. simpl.
      rewrite load_step, Hp. simpl. by rewrite bool_decide_eq_true_2 by done. }
    destruct (json (remote (sent w) (data (self w)) p4)) as [resp|] eqn:Hj.
    2:{ exists 0%nat. intros fuel _. subst run. simpl.
        rewrite load_step, Hp. simpl.
        rewrite bool_decide_eq_false_2 by done. by rewrite Hj. }
    destruct (decide (resulttype = "hits")) as [Hrt|Hrt].
    { exists 0%nat. intros fuel _. subst run. simpl.
      rewrite load_step, Hp. simpl.
      rewrite bool_decide_eq_false_2 by done. rewrite Hj.
      by rewrite bool_decide_eq_true_2 by done. }
    destruct (translate (self w) skip (r_records resp)) as [v|e] eqn:Hv.
    2:{ exists 0%nat. intros fuel _. subst run. simpl.
        rewrite load_step, Hp. simpl.
        rewrite bool_decide_eq_false_2 by done. rewrite Hj.
        rewrite bool_decide_eq_false_2 by done. by rewrite Hv. }
    destruct (numFeatures (self w)) as [n|] eqn:Hn.
    2:{ exists 0%nat. intros fuel _. subst run. simpl.
        rewrite load_step, Hp. simpl.
        rewrite bool_decide_eq_false_2 by done. rewrite Hj.
        rewrite bool_decide_eq_false_2 by done. by rewrite Hv, Hn. }
    exists (Z.to_nat (Z.min (r_limit resp) n - len v)). intros fuel Hle.
    apply (Hfuel fuel p4 resp v n); try done. lia.
  - intros fuel p4 resp v n Hp Hst Hj Hrt Hv Hn target. subst target.
    split_and!.
    + by apply (Hfuel fuel p4 resp v n).
    + rewrite (Hfirst fuel p4 resp v n) by done.
      pose proof (fetch_more_frame fuel (Z.min (r_limit resp) n) (len v) skip
                    p4 v (after w p4))
        as (_ & new & Hsent & _ & Hlen).
      assert (Hreq : requests_of w (fetch_more fuel (Z.min (r_limit resp) n)
                                      (len v) skip p4 v
                                      (after w p4)).2
                     = (data (self w), p4) :: new).
      { apply requests_of_app. rewrite Hsent. simpl.
        by rewrite <- app_assoc. }
      destruct (fetch_more _ _ _ _ _ _ _) as [[v'|e|] w']; simpl in *;
        rewrite Hreq; simpl; lia.
    + intros Hreached. rewrite (Hfirst fuel p4 resp v n) by done.
      rewrite fetch_more_step. by rewrite bool_decide_eq_false_2 by lia.
    + intros fc. rewrite (Hfirst fuel p4 resp v n) by done.
      pose proof (fetch_more_returned fuel (Z.min (r_limit resp) n) (len v)
                    skip p4 v) as Hret.
      destruct (fetch_more _ _ _ _ _ _ _) as [[v'|e|] w'] eqn:Hloop;
        simpl; try done.
      intros Hfc; inversion Hfc; subst; simpl.
      specialize (Hret v' (after w p4)). rewrite Hloop in Hret.
      destruct (Hret eq_refl) as [_ [Hstop|(h & q' & resp' & Hh & Hlen & Hj' & Hr')]];
        [by left|right].
      exists h, q', resp'. simpl in *. split_and!; try done.
      rewrite length_app in Hlen. simpl in Hlen. lia.
  - intros fuel h q' rest resp Hsent Hlen Hj Hrows. subst run. simpl in Hsent.
    rewrite load_step in Hsent.
    assert (Hw : sent w = h ++ (data (self w), q') :: rest → rest = []).
    { intros Hw. apply (f_equal length) in Hw. rewrite length_app in Hw.
      simpl in Hw. lia. }
    assert (Hone : ∀ p1, sent (after w p1) = h ++ (data (self w), q') :: rest →
                         rest = []).
    { intros p1 Hw1. apply (f_equal length) in Hw1. simpl in Hw1.
      rewrite !length_app in Hw1. simpl in Hw1. lia. }
    destruct (load_params _ _ _ _ _ _ _ _ _) as [p4|e]; [|by apply Hw].
    simpl in Hsent. case_bool_decide; [by apply (Hone p4)|].
    destruct (json (remote (sent w) _ p4)) as [resp1|]; [|by apply (Hone p4)].
    case_bool_decide; [by apply (Hone p4)|].
    destruct (translate _ _ _) as [v|e]; [|by apply (Hone p4)].
    destruct (numFeatures (self w)) as [n|]; [|by apply (Hone p4)].
    assert (Hloop : sent (fetch_more fuel (Z.min (r_limit resp1) n) (len v)
                            skip p4 v (after w p4)).2
                    = h ++ (data (self (after w p4)), q') :: rest).
    { by destruct (fetch_more _ _ _ _ _ _ _) as [[v'|e|] w']. }
    eapply fetch_more_stops_on_empty; [exact Hloop| |exact Hj|exact Hrows].
    simpl. rewrite length_app. simpl. lia.
  - intros fuel hits_ step p v w0 Hreached. rewrite fetch_more_step.
    by rewrite bool_decide_eq_false_2 by lia.
Qed.

(** ** [get] *)

(** C3.  For a provider whose total is cached and at least one unit of
    fuel: when the remote has no row for the identifier, whatever the
    offset, [get] raises [IndexError], the error of popping from an
    empty list, and returns nothing; when the first response carries
    exactly one row, which translates to a feature, and the remote has
    no row past it, [get] returns that feature. *)
Theorem get_missing_or_single (fuel : nat) (identifier : string) (w : world)
    (n : Z) (p : params) :
  (1 ≤ fuel)%nat →
  numFeatures (self w) = Some n →
  load_params (self w) 0 10 "results" (Some identifier) [] [] [] [] = Ok p →
  ((∀ h q, same_clauses p q → no_rows (remote h (data (self w)) q)) →
   (get fuel identifier w).1 = Raised IndexError)
  ∧ (∀ resp row ft,
       status_code (remote (sent w) (data (self w)) p) ≠ codes_bad →
       json (remote (sent w) (data (self w)) p) = Some resp →
       r_records resp = [row] →
       make_feature (self w) row false = Ok ft →
       (∀ h q, same_clauses p q → p_offset q = Some 1 →
               no_rows (remote h (data (self w)) q)) →
       (get fuel identifier w).1 = Returned ft).
Proof.
  intros Hfuel Hn Hp.
  pose proof (load_params_clauses _ _ _ _ _ _ _ _ _ _ Hp) as (Hoff & _).
  split.
  - intros Hnone.
    destruct (Hnone (sent w) p (same_clauses_refl p)) as (Hst & resp & Hj & Hr).
    unfold get, mbind, M_bind. rewrite load_step, Hp. simpl.
    rewrite bool_decide_eq_false_2 by done. rewrite Hj, Hr. simpl.
    rewrite Hn, fetch_more_step.
    case_bool_decide; [|done]. destruct fuel as [|fuel]; [lia|].
    unfold add_offset. rewrite Hoff. simpl.
    match goal with
    | |- context [remote ?h ?u ?q] =>
        destruct (Hnone h q) as (Hst' & resp' & Hj' & Hr');
        [by repeat split|]
    end.
    rewrite bool_decide_eq_false_2 by done. by rewrite Hj', Hr'.
  - intros resp row ft Hst Hj Hr Hft Hnone.
    unfold get, mbind, M_bind. rewrite load_step, Hp. simpl.
    rewrite bool_decide_eq_false_2 by done. rewrite Hj, Hr.
    unfold translate. simpl. rewrite Hft, Hn, fetch_more_step.
    case_bool_decide; [|done]. destruct fuel as [|fuel]; [lia|].
    unfold add_offset. rewrite Hoff. simpl.
    match goal with
    | |- context [remote ?h ?u ?q] =>
        destruct (Hnone h q) as (Hst' & resp' & Hj' & Hr');
        [by repeat split|done|]
    end.
    rewrite bool_decide_eq_false_2 by done. by rewrite Hj', Hr'.
Qed.

(** ** A limit of zero *)

(** C6, amended.  For a query with limit 0 in results mode against a
    remote that answers every request and never sends more rows than the
    requested limit, the result is the empty feature list.  The loop
    sends no further request when the limit the first response reports,
    capped by the cached total, is not positive; otherwise it sends
    exactly one, the first request again, whose empty page ends it. *)
Theorem query_limit_zero (fuel : nat) (offset : Z)
    (resulttype : string) (bbox : list pyfloat) (datetime_ : option string)
    (properties0 : list (string * value)) (sortby : list sort_item)
    (select_properties : list string) (skip : bool) (q : option string)
    (w : world) (p : params) (n : Z) :
  resulttype ≠ "hits" →
  (1 ≤ fuel)%nat →
  load_params (self w) offset 0 resulttype None bbox properties0 sortby
              select_properties = Ok p →
  numFeatures (self w) = Some n →
  honours_limit →
  ∃ resp,
    json (remote (sent w) (data (self w)) p) = Some resp
    ∧ query fuel offset 0 resulttype bbox datetime_ properties0 sortby
            select_properties skip q w
      = (Returned (FeatureCollection "FeatureCollection" [] None (Some 0)),
         World (self w)
           (sent w ++ (data (self w), p)
                      :: (if bool_decide (Z.min (r_limit resp) n ≤ 0)
                          then []
                          else [(data (self w), p)]))).
Proof.
  intros Hrt Hfuel Hp Hn Hh.
  pose proof (load_params_clauses _ _ _ _ _ _ _ _ _ _ Hp) as (Hoff & Hlim & _).
  assert (Hempty : ∀ h, status_code (remote h (data (self w)) p) ≠ codes_bad
            ∧ ∃ resp, json (remote h (data (self w)) p) = Some resp
                ∧ r_records resp = []).
  { intros h. destruct (Hh h (data (self w)) p) as (Hst & resp & Hj & Hl).
    split; [done|]. exists resp. split; [done|].
    apply len_zero. pose proof (len_nonneg (r_records resp)). lia. }
  destruct (Hempty (sent w)) as (Hst & resp & Hj & Hr).
  exists resp. split; [done|]. unfold query.
  rewrite load_step, Hp. simpl.
  rewrite bool_decide_eq_false_2 by done. rewrite Hj.
  rewrite bool_decide_eq_false_2 by done. rewrite Hr. simpl. rewrite Hn.
  rewrite fetch_more_step. unfold len at 1. simpl.
  case_bool_decide as Ht.
  - rewrite bool_decide_eq_false_2 by lia.
    destruct fuel as [|fuel]; [lia|].
    rewrite (add_offset_with _ _ _ Hoff). unfold len. simpl.
    rewrite Z.add_0_r, (with_offset_same _ _ Hoff).
    destruct (Hempty (sent (after w p))) as (Hst' & resp' & Hj' & Hr').
    simpl in Hst', Hj'.
    rewrite bool_decide_eq_false_2 by done. rewrite Hj', Hr'. simpl.
    unfold after. simpl. by rewrite <- app_assoc.
  - rewrite bool_decide_eq_true_2 by lia. done.
Qed.

(** ** Further properties of the clause builders and the row translator *)

Lemma direction_dec (i : sort_item) : Decision (direction i).
Proof. unfold direction. apply _. Qed.

Lemma orderby_comprehension (l : list sort_item) :
  (Forall direction l
   ∧ comprehension
       (fun i =>
          d ← (if decide (order i = "+") then Ok "asc"
               else if decide (order i = "-") then Ok "desc"
               else Err KeyError);
          mret (property i +:+ " " +:+ d)) l
     = Ok (map order_token l))
  ∨ (¬ Forall direction l
     ∧ comprehension
         (fun i =>
            d ← (if decide (order i = "+") then Ok "asc"
                 else if decide (order i = "-") then Ok "desc"
                 else Err KeyError);
            mret (property i +:+ " " +:+ d)) l
       = Err KeyError).
Proof.
  induction l as [|i l IH]; simpl; [by left|].
  unfold order_token at 1.
  destruct (decide (order i = "+")) as [Hp|Hp]; simpl.
  - destruct IH as [[Hl ->]|[Hl ->]]; [left|right]; split; try done.
    + constructor; [by left|done].
    + intros H. apply Hl. by inversion H.
  - destruct (decide (order i = "-")) as [Hm|Hm]; simpl.
    + destruct IH as [[Hl ->]|[Hl ->]]; [left|right]; split; try done.
      * constructor; [by right|done].
      * intros H. apply Hl. by inversion H.
    + right. split; [|done]. intros H. inversion H as [|? ? [?|?] ?]; done.
Qed.

Lemma make_orderby_error (sortby : list sort_item) :
  _make_orderby sortby = Err KeyError ↔ ¬ Forall direction sortby.
Proof.
  unfold _make_orderby.
  destruct (orderby_comprehension sortby) as [[Hd H]|[Hd H]]; rewrite H; simpl.
  - split; [done|]. intros Hn. by destruct Hn.
  - done.
Qed.

(** A direction other than [+] and [-] anywhere in the list makes
    [_make_orderby] raise [KeyError], and nothing else does. *)
Theorem make_orderby_unknown_direction (sortby : list sort_item) :
  _make_orderby sortby = Err KeyError ↔ ¬ Forall direction sortby.
Proof. apply make_orderby_error. Qed.

(** An unknown sort direction fails a query before anything is sent. *)
Theorem query_unknown_direction_sends_nothing (fuel : nat) (offset limit : Z)
    (resulttype : string) (bbox : list pyfloat) (datetime_ : option string)
    (properties0 : list (string * value)) (sortby : list sort_item)
    (select_properties : list string) (skip : bool) (q : option string)
    (w : world) :
  ¬ Forall direction sortby →
  query fuel offset limit resulttype bbox datetime_ properties0 sortby
        select_properties skip q w = (Raised KeyError, w).
Proof.
  intros Hd. unfold query. rewrite load_step.
  assert (Hp : load_params (self w) offset limit resulttype None bbox
                 properties0 sortby select_properties = Err KeyError).
  { unfold load_params. simpl. destruct sortby as [|i l].
    - destruct Hd. constructor.
    - simpl. apply make_orderby_error in Hd. by rewrite Hd. }
  by rewrite Hp.
Qed.

Lemma make_feature_skip_spec (self0 : provider) (f : gmap string value)
    (ft : feature) :
  make_feature self0 f true = Ok ft
  ↔ ∃ i, f !! id_field self0 = Some i
       ∧ ft = Feature "Feature" i None (delete (id_field self0) f).
Proof.
  unfold make_feature, pop. destruct (f !! id_field self0) as [i|]; simpl.
  - split.
    + intros H. inversion H. by exists i.
    + intros (i' & Hi & ->). by inversion Hi.
  - split; [done|]. by intros (i' & Hi & _).
Qed.

Lemma make_feature_geometry_spec (self0 : provider) (f : gmap string value)
    (ft : feature) :
  make_feature self0 f false = Ok ft
  ↔ ∃ i xv yv x y,
      f !! id_field self0 = Some i
      ∧ f !! x_field self0 = Some xv
      ∧ f !! y_field self0 = Some yv
      ∧ x_field self0 ≠ id_field self0
      ∧ y_field self0 ≠ id_field self0
      ∧ y_field self0 ≠ x_field self0
      ∧ float xv = Ok x
      ∧ float yv = Ok y
      ∧ ft = Feature "Feature" i (Some (Geometry "Point" [x; y]))
               (delete (y_field self0)
                  (delete (x_field self0) (delete (id_field self0) f))).
Proof.
  unfold make_feature, pop. split.
  - destruct (f !! id_field self0) as [i|] eqn:Hi; simpl; [|done].
    destruct (delete (id_field self0) f !! x_field self0) as [xv|] eqn:Hx;
      simpl; [|done].
    destruct (float xv) as [x|] eqn:Hfx; simpl; [|done].
    destruct (delete (x_field self0) (delete (id_field self0) f)
                !! y_field self0) as [yv|] eqn:Hy; simpl; [|done].
    destruct (float yv) as [y|] eqn:Hfy; simpl; [|done].
    intros H. inversion H.
    apply lookup_delete_Some in Hx as [Hxi Hx].
    apply lookup_delete_Some in Hy as [Hyx Hy].
    apply lookup_delete_Some in Hy as [Hyi Hy].
    exists i, xv, yv, x, y. split_and!; try done; congruence.
  - intros (i & xv & yv & x & y & Hi & Hx & Hy & Hxi & Hyi & Hyx & Hfx & Hfy & ->).
    rewrite Hi. simpl.
    rewrite lookup_delete_ne by done. rewrite Hx. simpl. rewrite Hfx. simpl.
    rewrite !lookup_delete_ne by done. rewrite Hy. simpl. by rewrite Hfy.
Qed.

(** With the geometry skipped the coordinates are never read: the
    translation succeeds exactly when the row has the id field, and the
    feature is then the id, a null geometry and the rest of the row. *)
Theorem make_feature_skip_iff (self0 : provider) (f : gmap string value)
    (ft : feature) :
  make_feature self0 f true = Ok ft
  ↔ ∃ i, f !! id_field self0 = Some i
       ∧ ft = Feature "Feature" i None (delete (id_field self0) f).
Proof. apply make_feature_skip_spec. Qed.

(** With the geometry built the translation succeeds exactly when the
    id field and the two coordinate fields are three different keys of
    the row and both coordinates convert to floats; the feature is then
    the id, the point made of the two floats and the rest of the row. *)
Theorem make_feature_geometry_iff (self0 : provider) (f : gmap string value)
    (ft : feature) :
  make_feature self0 f false = Ok ft
  ↔ ∃ i xv yv x y,
      f !! id_field self0 = Some i
      ∧ f !! x_field self0 = Some xv
      ∧ f !! y_field self0 = Some yv
      ∧ x_field self0 ≠ id_field self0
      ∧ y_field self0 ≠ id_field self0
      ∧ y_field self0 ≠ x_field self0
      ∧ float xv = Ok x
      ∧ float yv = Ok y
      ∧ ft = Feature "Feature" i (Some (Geometry "Point" [x; y]))
               (delete (y_field self0)
                  (delete (x_field self0) (delete (id_field self0) f))).
Proof. apply make_feature_geometry_spec. Qed.

(** The translation changes no other field: whatever the flag, every
    key of the row other than the id and coordinate fields is among the
    properties with its value, the properties hold nothing that was not
    in the row, and the id of the feature is the value of the id field. *)
Theorem make_feature_keeps_other_fields (self0 : provider)
    (f : gmap string value) (skip : bool) (ft : feature) :
  make_feature self0 f skip = Ok ft →
  f !! id_field self0 = Some (f_id ft)
  ∧ f_properties ft ⊆ f
  ∧ ∀ k, k ≠ id_field self0 → k ≠ x_field self0 → k ≠ y_field self0 →
         f_properties ft !! k = f !! k.
Proof.
  destruct skip.
  - intros H. apply make_feature_skip_spec in H as (i & Hi & ->). simpl.
    split_and!; [done|apply delete_subseteq|].
    intros k Hk _ _. by rewrite lookup_delete_ne.
  - intros H. apply make_feature_geometry_spec in H
      as (i & xv & yv & x & y & Hi & _ & _ & _ & _ & _ & _ & _ & ->). simpl.
    split_and!; [done| |].
    + etrans; [apply delete_subseteq|]. etrans; apply delete_subseteq.
    + intros k Hk Hx Hy. by rewrite !lookup_delete_ne.
Qed.

(** A configuration in which two of the three fields coincide can
    never produce a geometry: the second pop of the shared key fails. *)
Theorem make_feature_shared_field_fails (self0 : provider)
    (f : gmap string value) :
  x_field self0 = id_field self0 ∨ y_field self0 = id_field self0
  ∨ y_field self0 = x_field self0 →
  ∃ e, make_feature self0 f false = Err e.
Proof.
  intros Hshared.
  destruct (make_feature self0 f false) as [ft|e] eqn:H; [|by exists e].
  apply make_feature_geometry_spec in H
    as (i & xv & yv & x & y & _ & _ & _ & Hxi & Hyi & Hyx & _).
  by destruct Hshared as [?|[?|?]].
Qed.

(** ** The field cache *)

Lemma fields_of_last (l : list field_descriptor) (k : string) :
  fields_of l !! k
  = fd_rest <$> last (filter (λ d, fd_id d = k) l).
Proof.
  unfold fields_of.
  assert (H : ∀ m : gmap string (gmap string value),
    fold_left (λ m d, <[fd_id d := fd_rest d]> m) l m !! k
    = match last (filter (λ d, fd_id d = k) l) with
      | Some d => Some (fd_rest d)
      | None => m !! k
      end).
  { induction l as [|d l IH] using rev_ind; intros m; [done|].
    rewrite fold_left_app, filter_app. simpl.
    destruct (decide (fd_id d = k)) as [Hd|Hd].
    - rewrite (filter_cons_True _ d []) by done. rewrite filter_nil.
      rewrite last_snoc. rewrite <- Hd. apply lookup_insert_eq.
    - rewrite (filter_cons_False _ d []) by done. rewrite filter_nil.
      rewrite app_nil_r, lookup_insert_ne by done. apply IH. }
  rewrite H. by destruct (last _).
Qed.

(** The cache built from a list of descriptors maps an id to the rest
    of the last descriptor with that id. *)
Theorem fields_of_lookup (l : list field_descriptor) (k : string) :
  fields_of l !! k
  = fd_rest <$> last (filter (λ d, fd_id d = k) l).
Proof. apply fields_of_last. Qed.

Lemma fields_of_nonempty (l : list field_descriptor) :
  l ≠ [] → fields_of l ≠ ∅.
Proof.
  destruct l as [|d l] using rev_ind; [done|]. intros _ H.
  pose proof (fields_of_last (l ++ [d]) (fd_id d)) as Hl.
  rewrite H, lookup_empty, filter_app in Hl.
  rewrite (filter_cons_True _ d []) in Hl by done.
  rewrite filter_nil, last_snoc in Hl. done.
Qed.

(** The request of the schema discovery. *)
Lemma get_fields_step (w : world) :
  get_fields w =
  if bool_decide (fields (self w) = ∅) then
    let ps := to_set (properties (self w))
              ∪ list_to_set [id_field (self w); x_field (self w);
                             y_field (self w)] in
    let self1 := if truthy (properties (self w))
                 then with_properties (AsSet ps) (self w)
                 else self w in
    let p0 := Params None 1 (resource_id (self w)) None None (Some "true") None in
    let p := if truthy (properties (self w))
             then set_fields (join "," (set_order ps)) p0
             else p0 in
    let log := sent w ++ [(data (self w), p)] in
    match json (remote (sent w) (data (self w)) p) with
    | None => (Raised ProviderQueryError, World self1 log)
    | Some resp =>
        (Returned (fields_of (r_fields resp)),
         World (with_numFeatures (r_total resp)
                  (with_fields (fields_of (r_fields resp)) self1)) log)
    end
  else (Returned (fields (self w)), w).
Proof.
  unfold get_fields, mbind, M_bind, get_self, modify_self, s_get, raise,
    mret, M_ret. simpl.
  case_bool_decide; simpl; [|done].
  destruct (truthy (properties (self w))); simpl; by destruct (json _).
Qed.

(** Schema discovery on an empty cache sends one request, for a single
    row with the total, without offset, filter or sort.  When the body
    of the response is a JSON document of the expected shape, a result
    object with its fields and total, it returns the field mapping,
    stores it and stores the reported total, whatever the status of the
    response. *)
Theorem get_fields_discovers (w : world) (resp : result_body) :
  fields (self w) = ∅ →
  (∀ p, json (remote (sent w) (data (self w)) p) = Some resp) →
  ∃ p,
    get_fields w
    = (Returned (fields_of (r_fields resp)),
       World (self (get_fields w).2) (sent w ++ [(data (self w), p)]))
    ∧ fields (self (get_fields w).2) = fields_of (r_fields resp)
    ∧ numFeatures (self (get_fields w).2) = Some (r_total resp)
    ∧ p_limit p = 1 ∧ p_include_total p = Some "true"
    ∧ p_resource_id p = resource_id (self w)
    ∧ p_offset p = None ∧ p_filters p = None ∧ p_sort p = None.
Proof.
  intros Hf Hj. rewrite get_fields_step. rewrite bool_decide_eq_true_2 by done.
  simpl. rewrite Hj. simpl.
  eexists. split; [reflexivity|].
  by destruct (truthy (properties (self w))).
Qed.

(** When the body of the discovery response is not JSON, [get_fields]
    raises [ProviderQueryError] after its one request; the cache stays
    empty and the total stays as it was. *)
Theorem get_fields_bad_body (w : world) :
  fields (self w) = ∅ →
  (∀ p, json (remote (sent w) (data (self w)) p) = None) →
  (get_fields w).1 = Raised ProviderQueryError
  ∧ fields (self (get_fields w).2) = ∅
  ∧ numFeatures (self (get_fields w).2) = numFeatures (self w)
  ∧ length (requests_of w (get_fields w).2) = 1%nat.
Proof.
  intros Hf Hj. rewrite get_fields_step. rewrite bool_decide_eq_true_2 by done.
  simpl. rewrite Hj. simpl. split_and!; try done.
  - by destruct (truthy (properties (self w))).
  - by destruct (truthy (properties (self w))).
  - unfold requests_of. simpl. rewrite drop_app_length. done.
Qed.

(** The schema is fetched once: after a discovery that found at least
    one field, a further [get_fields] returns the cached mapping, sends
    nothing and changes nothing. *)
Theorem get_fields_once (w : world) (resp : result_body) :
  fields (self w) = ∅ →
  (∀ p, json (remote (sent w) (data (self w)) p) = Some resp) →
  r_fields resp ≠ [] →
  get_fields (get_fields w).2
  = (Returned (fields_of (r_fields resp)), (get_fields w).2).
Proof.
  intros Hf Hj Hne. rewrite (get_fields_step (get_fields w).2).
  assert (Hc : fields (self (get_fields w).2) = fields_of (r_fields resp)).
  { rewrite get_fields_step. rewrite bool_decide_eq_true_2 by done.
    simpl. rewrite Hj. simpl. by destruct (truthy (properties (self w))). }
  rewrite Hc. rewrite bool_decide_eq_false_2; [done|].
  by apply fields_of_nonempty.
Qed.

(** A discovery that finds no field leaves the cache empty, so the next
    [get_fields] asks the remote again. *)
Theorem get_fields_empty_schema_refetches (w : world) (resp : result_body) :
  fields (self w) = ∅ →
  (∀ h p, json (remote h (data (self w)) p) = Some resp) →
  r_fields resp = [] →
  length (requests_of w (get_fields (get_fields w).2).2) = 2%nat.
Proof.
  intros Hf Hj He.
  assert (H1 : ∀ w0, fields (self w0) = ∅ → data (self w0) = data (self w) →
    fields (self (get_fields w0).2) = ∅
    ∧ data (self (get_fields w0).2) = data (self w)
    ∧ ∃ u, sent (get_fields w0).2 = sent w0 ++ [u]).
  { intros w0 Hf0 Hd0. rewrite get_fields_step.
    rewrite bool_decide_eq_true_2 by done.
    destruct (truthy (properties (self w0))); simpl; rewrite Hd0, Hj, He;
      simpl; (split_and!; [done|done|by eexists]). }
  destruct (H1 w Hf eq_refl) as (Hf1 & Hd1 & u1 & Hs1).
  destruct (H1 _ Hf1 Hd1) as (_ & _ & u2 & Hs2).
  unfold requests_of. rewrite Hs2, Hs1, <- app_assoc, drop_app_length. done.
Qed.

(** ** The requests and the rows of one call *)

(** The cursor of the loop advances by the same stride at every pass. *)
Lemma fetch_more_offsets (fuel : nat) (hits_ step : Z) (skip : bool)
    (p : params) (v : list feature) (w : world) (o : Z) :
  p_offset p = Some o →
  ∃ m, sent (fetch_more fuel hits_ step skip p v w).2
       = sent w ++ map (λ k, (data (self w),
                              with_offset (o + Z.of_nat k * step) p))
                       (seq 1 m).
Proof.
  revert p v w o. induction fuel as [|fuel IH]; intros p v w o Ho;
    rewrite fetch_more_step.
  - exists 0%nat. simpl. rewrite app_nil_r. by case_bool_decide.
  - assert (Hnil : ∃ m, sent w
        = sent w ++ map (λ k, (data (self w),
                               with_offset (o + Z.of_nat k * step) p))
                        (seq 1 m)).
    { exists 0%nat. simpl. by rewrite app_nil_r. }
    case_bool_decide; [|done].
    rewrite (add_offset_with _ _ _ Ho).
    assert (Hone : ∃ m, sent (after w (with_offset (o + step) p))
        = sent w ++ map (λ k, (data (self w),
                               with_offset (o + Z.of_nat k * step) p))
                        (seq 1 m)).
    { exists 1%nat. simpl. do 4 f_equal. lia. }
    simpl. case_bool_decide; [done|].
    destruct (json _) as [resp|]; [|done].
    destruct (translate _ _ _) as [page|e]; [|done].
    case_bool_decide; [done|].
    destruct (IH (with_offset (o + step) p) (v ++ page)
                 (after w (with_offset (o + step) p)) (o + step) eq_refl)
      as [m Hm].
    exists (S m). rewrite Hm. simpl. rewrite <- app_assoc. simpl.
    do 2 f_equal. { do 2 f_equal. lia. }
    rewrite <- (seq_shift m 1), map_map. apply map_ext. intros k.
    rewrite with_offset_twice. do 2 f_equal. lia.
Qed.

Lemma translate_app (self0 : provider) (skip : bool)
    (a b : list (gmap string value)) (x y : list feature) :
  translate self0 skip a = Ok x → translate self0 skip b = Ok y →
  translate self0 skip (a ++ b) = Ok (x ++ y).
Proof.
  unfold translate. revert x. induction a as [|f a IH]; simpl; intros x Ha Hb.
  - by inversion Ha.
  - destruct (make_feature self0 f skip) as [ft|]; [|done].
    destruct (comprehension _ a) as [x'|]; [|done].
    inversion Ha; subst. by rewrite (IH x' eq_refl Hb).
Qed.

(** The features the loop adds are the translation, in order, of all
    the rows its calls received. *)
Lemma fetch_more_rows (fuel : nat) (hits_ step : Z) (skip : bool)
    (p : params) (v v' : list feature) (w : world) :
  (fetch_more fuel hits_ step skip p v w).1 = Returned v' →
  ∃ extra,
    v' = v ++ extra
    ∧ translate (self w) skip
        (flat_map rows_of
           (replay (sent w)
              (requests_of w (fetch_more fuel hits_ step skip p v w).2)))
      = Ok extra.
Proof.
  revert p v w. induction fuel as [|fuel IH]; intros p v w;
    rewrite fetch_more_step.
  - case_bool_decide; simpl; [done|]. intros Hr; inversion Hr; subst.
    exists []. rewrite app_nil_r, requests_of_refl. done.
  - case_bool_decide.
    2:{ simpl. intros Hr; inversion Hr; subst.
        exists []. rewrite app_nil_r, requests_of_refl. done. }
    destruct (add_offset step p) as [p1|e]; [|done].
    simpl. case_bool_decide; [done|].
    destruct (json (remote (sent w) (data (self w)) p1)) as [resp|] eqn:Hj;
      [|done].
    destruct (translate _ _ _) as [page|e] eqn:Hpage; [|done].
    case_bool_decide as Hz.
    + simpl. intros Hr; inversion Hr; subst.
      exists []. rewrite app_nil_r, requests_of_after. simpl.
      unfold rows_of. rewrite Hj, app_nil_r, Hpage.
      by rewrite (len_zero _ Hz).
    + intros Hr. destruct (IH p1 (v ++ page) (after w p1) Hr)
        as (extra & -> & Hex).
      exists (page ++ extra). split; [by rewrite app_assoc|].
      pose proof (fetch_more_frame fuel hits_ step skip p1 (v ++ page)
                    (after w p1)) as (_ & new & Hnew & _).
      rewrite (requests_of_app _ _ _ Hnew) in Hex.
      rewrite (requests_of_app w _ ((data (self w), p1) :: new)).
      2:{ rewrite Hnew. simpl. by rewrite <- app_assoc. }
      simpl. unfold rows_of at 1. rewrite Hj.
      by apply translate_app.
Qed.

Lemma load_offsets (fuel : nat) (offset limit : Z)
    (resulttype : string) (identifier : option string) (bbox : list pyfloat)
    (datetime_ : option string) (properties0 : list (string * value))
    (sortby : list sort_item) (select_properties : list string)
    (skip : bool) (q : option string) (w : world)
    (p4 : params) (resp : result_body) (v : list feature) :
  load_params (self w) offset limit resulttype identifier bbox properties0
              sortby select_properties = Ok p4 →
  status_code (remote (sent w) (data (self w)) p4) ≠ codes_bad →
  json (remote (sent w) (data (self w)) p4) = Some resp →
  resulttype ≠ "hits" →
  translate (self w) skip (r_records resp) = Ok v →
  ∃ m,
    requests_of w (_load fuel offset limit resulttype identifier bbox
                         datetime_ properties0 sortby select_properties
                         skip q w).2
    = map (λ k, (data (self w), with_offset (offset + Z.of_nat k * len v) p4))
          (seq 0 (S m)).
Proof.
  intros Hp Hst Hj Hrt Hv.
  pose proof (load_params_clauses _ _ _ _ _ _ _ _ _ _ Hp) as (Ho & _).
  rewrite load_step, Hp. simpl.
  rewrite bool_decide_eq_false_2 by done. rewrite Hj.
  rewrite bool_decide_eq_false_2 by done. rewrite Hv.
  assert (Hfirst : (data (self w),
                    with_offset (offset + Z.of_nat 0 * len v) p4)
                   = (data (self w), p4)).
  { f_equal. apply with_offset_same. rewrite Ho. f_equal. lia. }
  destruct (numFeatures (self w)) as [n|].
  2:{ exists 0%nat. simpl. rewrite requests_of_after. simpl.
      by rewrite Hfirst. }
  destruct (fetch_more_offsets fuel (Z.min (r_limit resp) n) (len v) skip p4
              v (after w p4) offset Ho) as [m Hm].
  exists m.
  assert (Hreq : requests_of w (fetch_more fuel (Z.min (r_limit resp) n)
                                  (len v) skip p4 v (after w p4)).2
                 = map (λ k, (data (self w),
                              with_offset (offset + Z.of_nat k * len v) p4))
                       (seq 0 (S m))).
  { apply requests_of_app. rewrite Hm. simpl. rewrite <- app_assoc. simpl.
    by rewrite Hfirst. }
  by destruct (fetch_more _ _ _ _ _ _ _) as [[v'|e|] w'].
Qed.

(** The stride of the cursor: once the first page is in, the requests
    of [_load] are the first one repeated at the offsets
    [offset + k * step], where [step] is the number of features of the
    first page, whatever the sizes of the later pages. *)
Theorem load_offsets_stride (fuel : nat) (offset limit : Z)
    (resulttype : string) (identifier : option string) (bbox : list pyfloat)
    (datetime_ : option string) (properties0 : list (string * value))
    (sortby : list sort_item) (select_properties : list string)
    (skip : bool) (q : option string) (w : world)
    (p4 : params) (resp : result_body) (v : list feature) :
  load_params (self w) offset limit resulttype identifier bbox properties0
              sortby select_properties = Ok p4 →
  status_code (remote (sent w) (data (self w)) p4) ≠ codes_bad →
  json (remote (sent w) (data (self w)) p4) = Some resp →
  resulttype ≠ "hits" →
  translate (self w) skip (r_records resp) = Ok v →
  ∃ m,
    requests_of w (_load fuel offset limit resulttype identifier bbox
                         datetime_ properties0 sortby select_properties
                         skip q w).2
    = map (λ k, (data (self w), with_offset (offset + Z.of_nat k * len v) p4))
          (seq 0 (S m)).
Proof. apply load_offsets. Qed.

Lemma load_rows (fuel : nat) (offset limit : Z)
    (resulttype : string) (identifier : option string) (bbox : list pyfloat)
    (datetime_ : option string)
    (properties0 : list (string * value)) (sortby : list sort_item)
    (select_properties : list string) (skip : bool) (q : option string)
    (w w' : world) (fc : feature_collection) :
  resulttype ≠ "hits" →
  _load fuel offset limit resulttype identifier bbox datetime_ properties0
        sortby select_properties skip q w = (Returned fc, w') →
  translate (self w) skip
    (flat_map rows_of (replay (sent w) (requests_of w w')))
  = Ok (features fc)
  ∧ numberReturned fc
    = Some (len (flat_map rows_of (replay (sent w) (requests_of w w')))).
Proof.
  intros Hrt. rewrite load_step.
  destruct (load_params _ _ _ _ _ _ _ _ _) as [p4|e]; [|done].
  simpl. case_bool_decide; [done|].
  destruct (json (remote (sent w) (data (self w)) p4)) as [resp|] eqn:Hj;
    [|done].
  rewrite bool_decide_eq_false_2 by done.
  destruct (translate _ _ _) as [v|e] eqn:Hv; [|done].
  destruct (numFeatures (self w)) as [n|]; [|done].
  pose proof (fetch_more_rows fuel (Z.min (r_limit resp) n) (len v) skip p4 v)
    as Hrows.
  pose proof (fetch_more_frame fuel (Z.min (r_limit resp) n) (len v) skip p4
                v (after w p4)) as (_ & new & Hnew & _).
  destruct (fetch_more _ _ _ _ _ _ _) as [[v'|e|] w1] eqn:Hloop; try done.
  intros Hr; inversion Hr; subst. simpl in *.
  specialize (Hrows v' (after w p4)). rewrite Hloop in Hrows.
  destruct (Hrows eq_refl) as (extra & -> & Hex). simpl in Hex.
  rewrite (requests_of_app (after w p4) w' new Hnew) in Hex.
  rewrite (requests_of_app w w' ((data (self w), p4) :: new)).
  2:{ rewrite Hnew. by rewrite <- app_assoc. }
  simpl. unfold rows_of at 1 3. rewrite Hj.
  assert (Ht : translate (self w) skip
                 (r_records resp
                  ++ flat_map rows_of
                       (replay (sent w ++ [(data (self w), p4)]) new))
               = Ok (v ++ extra)) by (by apply translate_app).
  split; [done|]. f_equal. by apply translate_length in Ht.
Qed.

(** In results mode the features of the returned collection are the
    translation, in order, of all the rows the call received, the first
    page included: the code drops none and repeats none, and
    [numberReturned] is the number of rows received. *)
Theorem query_translates_every_row (fuel : nat) (offset limit : Z)
    (resulttype : string) (bbox : list pyfloat) (datetime_ : option string)
    (properties0 : list (string * value)) (sortby : list sort_item)
    (select_properties : list string) (skip : bool) (q : option string)
    (w w' : world) (fc : feature_collection) :
  resulttype ≠ "hits" →
  query fuel offset limit resulttype bbox datetime_ properties0 sortby
        select_properties skip q w = (Returned fc, w') →
  translate (self w) skip
    (flat_map rows_of (replay (sent w) (requests_of w w')))
  = Ok (features fc)
  ∧ numberReturned fc
    = Some (len (flat_map rows_of (replay (sent w) (requests_of w w')))).
Proof. unfold query. apply load_rows. Qed.

Lemma make_orderby_ok (sortby : list sort_item) (o : string) :
  _make_orderby sortby = Ok o → o = buildOrderBy sortby.
Proof.
  unfold _make_orderby.
  destruct (orderby_comprehension sortby) as [[_ H]|[_ H]]; rewrite H; simpl;
    [|done].
  intros Ho. by inversion Ho.
Qed.

(** The remaining clauses of the first request. *)
Lemma load_params_rest (self0 : provider) (offset limit : Z)
    (resulttype : string) (identifier : option string) (bbox : list pyfloat)
    (properties0 : list (string * value)) (sortby : list sort_item)
    (select_properties : list string) (p : params) :
  load_params self0 offset limit resulttype identifier bbox properties0
              sortby select_properties = Ok p →
  p_resource_id p = resource_id self0
  ∧ p_include_total p =
      match given identifier with
      | Some _ => None
      | None => if bool_decide (resulttype = "hits") then Some "true" else None
      end
  ∧ p_sort p =
      match given identifier with
      | Some _ => None
      | None => if nonempty sortby then Some (buildOrderBy sortby) else None
      end.
Proof.
  unfold load_params. destruct (given identifier) as [i|].
  - intros H. inversion H; subst; simpl.
    by destruct (truthy _ || nonempty _).
  - destruct (nonempty sortby).
    + destruct (_make_orderby sortby) as [o|e] eqn:Ho; simpl; [|done].
      apply make_orderby_ok in Ho as ->.
      intros H. inversion H; subst; simpl.
      by destruct (truthy _ || nonempty _), (nonempty properties0 || nonempty bbox),
        (bool_decide (resulttype = "hits")).
    + intros H. inversion H; subst; simpl.
      by destruct (truthy _ || nonempty _), (nonempty properties0 || nonempty bbox),
        (bool_decide (resulttype = "hits")).
Qed.

(** What every request of a [_load] carries. *)
Lemma load_requests (fuel : nat) (offset limit : Z) (resulttype : string)
    (identifier : option string) (bbox : list pyfloat)
    (datetime_ : option string) (properties0 : list (string * value))
    (sortby : list sort_item) (select_properties : list string)
    (skip : bool) (q : option string) (w : world) :
  let r := _load fuel offset limit resulttype identifier bbox datetime_
                 properties0 sortby select_properties skip q w in
  sent r.2 = sent w ++ requests_of w r.2
  ∧ Forall (λ u,
      u.1 = data (self w)
      ∧ p_limit u.2 = limit
      ∧ p_resource_id u.2 = resource_id (self w)
      ∧ p_filters u.2 =
          match given identifier with
          | Some i => Some (_make_where [(id_field (self w), VStr i)] [])
          | None =>
              if nonempty properties0 || nonempty bbox
              then Some (_make_where properties0 [])
              else None
          end
      ∧ p_include_total u.2 =
          match given identifier with
          | Some _ => None
          | None =>
              if bool_decide (resulttype = "hits") then Some "true" else None
          end
      ∧ p_sort u.2 =
          match given identifier with
          | Some _ => None
          | None =>
              if nonempty sortby then Some (buildOrderBy sortby) else None
          end)
      (requests_of w r.2).
Proof.
  intros r. subst r.
  pose proof (load_frame fuel offset limit resulttype identifier bbox
                datetime_ properties0 sortby select_properties skip q w)
    as [_ Hl]. simpl in Hl.
  destruct (load_params _ _ _ _ _ _ _ _ _) as [p4|e] eqn:Hp.
  2:{ rewrite Hl. simpl. rewrite requests_of_refl, app_nil_r. done. }
  destruct Hl as (new & Hsent & Hnew).
  rewrite (requests_of_app _ _ _ Hsent). split; [done|].
  pose proof (load_params_clauses _ _ _ _ _ _ _ _ _ _ Hp) as (_ & Hlim & _ & Hf).
  pose proof (load_params_rest _ _ _ _ _ _ _ _ _ _ Hp) as (Hrid & Hit & Hs).
  constructor; [done|]. eapply Forall_impl; [exact Hnew|].
  simpl. intros u [Hu (H1 & H2 & _ & H4 & H5 & H6)].
  split_and!; congruence.
Qed.

(** [query] never touches the provider and only adds to the log of
    requests; every request it sends goes to the configured endpoint
    with the caller's limit, the configured resource, [include_total]
    exactly in hits mode and the sort clause of [sortby] exactly when
    [sortby] is not empty. *)
Theorem query_frame (fuel : nat) (offset limit : Z) (resulttype : string)
    (bbox : list pyfloat) (datetime_ : option string)
    (properties0 : list (string * value)) (sortby : list sort_item)
    (select_properties : list string) (skip : bool) (q : option string)
    (w : world) :
  let r := query fuel offset limit resulttype bbox datetime_ properties0
                 sortby select_properties skip q w in
  self r.2 = self w
  ∧ sent r.2 = sent w ++ requests_of w r.2
  ∧ Forall (λ u,
      u.1 = data (self w)
      ∧ p_limit u.2 = limit
      ∧ p_resource_id u.2 = resource_id (self w)
      ∧ p_include_total u.2 =
          (if bool_decide (resulttype = "hits") then Some "true" else None)
      ∧ p_sort u.2 =
          (if nonempty sortby then Some (buildOrderBy sortby) else None))
      (requests_of w r.2).
Proof.
  intros r. subst r. unfold query.
  pose proof (load_frame fuel offset limit resulttype None bbox datetime_
                properties0 sortby select_properties skip None w) as [Hs _].
  pose proof (load_requests fuel offset limit resulttype None bbox datetime_
                properties0 sortby select_properties skip None w) as [Hl Hr].
  simpl in *. split_and!; [done|done|].
  eapply Forall_impl; [exact Hr|]. simpl. tauto.
Qed.

Lemma get_state (fuel : nat) (identifier : string) (w : world) :
  (get fuel identifier w).2
  = (_load fuel 0 10 "results" (Some identifier) [] None [] [] [] false
           None w).2.
Proof.
  unfold get, mbind, M_bind.
  destruct (_load _ _ _ _ _ _ _ _ _ _ _ _ _) as [[fc|e|] w']; simpl; try done.
  unfold lift. by destruct (list_pop (features fc)).
Qed.

(** A lookup by identifier asks for at most 10 rows, without sort and
    without total, filtered on the id field alone: the filters clause is
    the JSON object with the id field as its single key and the
    identifier as its string value.  An empty identifier counts as no
    identifier: no filters clause is sent at all. *)
Theorem get_requests (fuel : nat) (identifier : string) (w : world) :
  Forall (λ u,
    u.1 = data (self w)
    ∧ p_limit u.2 = 10
    ∧ p_filters u.2 =
        (if decide (identifier = "") then None
         else Some (json_dumps [(id_field (self w), VStr identifier)]))
    ∧ p_include_total u.2 = None
    ∧ p_sort u.2 = None)
    (requests_of w (get fuel identifier w).2).
Proof.
  rewrite get_state.
  pose proof (load_requests fuel 0 10 "results" (Some identifier) [] None []
                [] [] false None w) as [_ Hr]. simpl in Hr.
  eapply Forall_impl; [exact Hr|]. simpl.
  intros u (H1 & H2 & _ & H4 & H5 & H6). split_and!; try done.
  - rewrite H4. destruct identifier; simpl; [done|].
    by rewrite make_where_dict.
  - rewrite H5. by destruct identifier.
  - rewrite H6. by destruct identifier.
Qed.

Lemma translate_snoc_inv (self0 : provider) (skip : bool)
    (rows : list (gmap string value)) (fs : list feature) (ft : feature) :
  translate self0 skip rows = Ok (fs ++ [ft]) →
  ∃ rows' row, rows = rows' ++ [row] ∧ make_feature self0 row skip = Ok ft.
Proof.
  unfold translate. revert fs. induction rows as [|r rows IH]; simpl; intros fs.
  - intros H. inversion H. by destruct fs.
  - destruct (make_feature self0 r skip) as [f|] eqn:Hf; [|done].
    destruct (comprehension _ rows) as [x|] eqn:Hx; [|done].
    intros H. inversion H as [Heq].
    destruct fs as [|f' fs]; simpl in Heq.
    + inversion Heq; subst.
      apply comprehension_length in Hx. destruct rows; [|done].
      by exists [], r.
    + inversion Heq; subst.
      destruct (IH fs eq_refl) as (rows' & row & -> & Hrow).
      by exists (r :: rows'), row.
Qed.

(** [get] returns the translation of the last row the call received,
    also when the remote sent more than one row for the identifier. *)
Theorem get_returns_last_row (fuel : nat) (identifier : string)
    (w w' : world) (ft : feature) :
  get fuel identifier w = (Returned ft, w') →
  ∃ rows row,
    flat_map rows_of (replay (sent w) (requests_of w w')) = rows ++ [row]
    ∧ make_feature (self w) row false = Ok ft.
Proof.
  unfold get, mbind, M_bind.
  destruct (_load _ _ _ _ _ _ _ _ _ _ _ _ _) as [[fc|e|] w1] eqn:Hload;
    try done.
  unfold lift, list_pop. destruct (last (features fc)) as [ft'|] eqn:Hlast;
    [|done].
  intros H. inversion H; subst.
  apply last_Some in Hlast as [fs Hfs].
  apply load_rows in Hload as [Ht _]; [|done].
  rewrite Hfs in Ht. by apply translate_snoc_inv in Ht.
Qed.

(** ** Errors *)

Lemma float_errors (v : value) (e : exn) :
  float v = Err e → e = TypeError ∨ e = ValueError.
Proof.
  destruct v as [|b|z|x|t]; simpl; try done.
  - intros H. inversion H. by left.
  - destruct (float_of_str t); [done|]. intros H. inversion H. by right.
Qed.

Lemma make_feature_errors (self0 : provider) (f : gmap string value)
    (skip : bool) (e : exn) :
  make_feature self0 f skip = Err e →
  e = KeyError ∨ e = TypeError ∨ e = ValueError.
Proof.
  unfold make_feature, pop.
  destruct (f !! id_field self0) as [i|]; simpl;
    [|intros H; inversion H; by left].
  destruct skip; simpl; [done|].
  destruct (_ !! x_field self0) as [xv|]; simpl;
    [|intros H; inversion H; by left].
  destruct (float xv) as [x|ex] eqn:Hx; simpl.
  2:{ intros H. inversion H; subst. right. by apply float_errors in Hx. }
  destruct (_ !! y_field self0) as [yv|]; simpl;
    [|intros H; inversion H; by left].
  destruct (float yv) as [y|ey] eqn:Hy; simpl; [done|].
  intros H. inversion H; subst. right. by apply float_errors in Hy.
Qed.

Lemma translate_errors (self0 : provider) (skip : bool)
    (rows : list (gmap string value)) (e : exn) :
  translate self0 skip rows = Err e →
  e = KeyError ∨ e = TypeError ∨ e = ValueError.
Proof.
  unfold translate. induction rows as [|f rows IH]; simpl; [done|].
  destruct (make_feature self0 f skip) as [ft|e'] eqn:Hf.
  - destruct (comprehension _ rows); [done|].
    intros H. inversion H; subst. by apply IH.
  - intros H. inversion H; subst. by apply make_feature_errors in Hf.
Qed.

Lemma fetch_more_errors (fuel : nat) (hits_ step : Z) (skip : bool)
    (p : params) (v : list feature) (w : world) (e : exn) :
  (fetch_more fuel hits_ step skip p v w).1 = Raised e →
  e ≠ ProviderQueryError ∧ e ≠ IndexError ∧ e ≠ AttributeError.
Proof.
  revert p v w. induction fuel as [|fuel IH]; intros p v w;
    rewrite fetch_more_step.
  - by case_bool_decide.
  - case_bool_decide; [|done].
    unfold add_offset. destruct (p_offset p) as [o|]; simpl.
    2:{ intros H'; inversion H'; subst. done. }
    case_bool_decide; [intros H'; inversion H'; subst; done|].
    destruct (json _) as [resp|]; [|intros H'; inversion H'; subst; done].
    destruct (translate _ _ _) as [page|e'] eqn:Hpage.
    + case_bool_decide; [done|]. apply IH.
    + simpl. intros H'; inversion H'; subst.
      apply translate_errors in Hpage as [-> | [-> | ->]]; done.
Qed.

(** [query] raises [KeyError], [ValueError], [TypeError],
    [JSONDecodeError], [ProviderConnectionError] or [AttributeError] and
    nothing else: it never raises [ProviderQueryError] or [IndexError].
    In particular a first response whose body is not JSON surfaces as
    the bare [JSONDecodeError], not wrapped as it is in [get_fields]. *)
Theorem query_error_kinds (fuel : nat) (offset limit : Z)
    (resulttype : string) (bbox : list pyfloat) (datetime_ : option string)
    (properties0 : list (string * value)) (sortby : list sort_item)
    (select_properties : list string) (skip : bool) (q : option string)
    (w : world) :
  let r := query fuel offset limit resulttype bbox datetime_ properties0
                 sortby select_properties skip q w in
  (∀ e, r.1 = Raised e → e ≠ ProviderQueryError ∧ e ≠ IndexError)
  ∧ (∀ p,
       load_params (self w) offset limit resulttype None bbox properties0
                   sortby select_properties = Ok p →
       status_code (remote (sent w) (data (self w)) p) ≠ codes_bad →
       json (remote (sent w) (data (self w)) p) = None →
       r = (Raised JSONDecodeError, after w p)).
Proof.
  intros r. subst r. unfold query. rewrite load_step. split.
  - intros e.
    destruct (load_params _ _ _ _ _ _ _ _ _) as [p4|e'] eqn:Hp.
    2:{ simpl. intros H; inversion H; subst.
        unfold load_params in Hp. simpl in Hp.
        destruct (nonempty sortby); [|done].
        destruct (_make_orderby sortby) as [o|e''] eqn:Ho; [done|].
        simpl in Hp. inversion Hp; subst.
        unfold _make_orderby in Ho.
        destruct (orderby_comprehension sortby) as [[_ Hc]|[_ Hc]];
          rewrite Hc in Ho; simpl in Ho; [done|].
        by inversion Ho. }
    simpl. case_bool_decide; [intros H'; inversion H'; subst; done|].
    destruct (json _) as [resp|]; [|intros H'; inversion H'; subst; done].
    case_bool_decide; [done|].
    destruct (translate _ _ _) as [v|e'] eqn:Hv.
    2:{ simpl. intros H'; inversion H'; subst.
        apply translate_errors in Hv as [-> | [-> | ->]]; done. }
    destruct (numFeatures (self w)) as [n|];
      [|intros H'; inversion H'; subst; done].
    pose proof (fetch_more_errors fuel (Z.min (r_limit resp) n) (len v) skip
                  p4 v (after w p4) e) as He.
    destruct (fetch_more _ _ _ _ _ _ _) as [[v'|e'|] w']; simpl in *;
      try done.
    intros H'; inversion H'; subst. by destruct (He eq_refl) as (? & ? & _).
  - intros p Hp Hst Hj. rewrite Hp. simpl.
    rewrite bool_decide_eq_false_2 by done. by rewrite Hj.
Qed.

Lemma fetch_more_connection_error (fuel : nat) (hits_ step : Z) (skip : bool)
    (p : params) (v : list feature) (w : world) :
  (fetch_more fuel hits_ step skip p v w).1 = Raised ProviderConnectionError
  ↔ Exists (λ r, status_code r = codes_bad)
           (replay (sent w)
              (requests_of w (fetch_more fuel hits_ step skip p v w).2)).
Proof.
  revert p v w. induction fuel as [|fuel IH]; intros p v w;
    rewrite fetch_more_step.
  - case_bool_decide; simpl; rewrite requests_of_refl; simpl;
      (split; [done|]); intros Hex; by apply Exists_nil in Hex.
  - assert (Hnil : ∀ o : outcome (list feature),
      o ≠ Raised ProviderConnectionError →
      (o, w).1 = Raised ProviderConnectionError
      ↔ Exists (λ r, status_code r = codes_bad)
               (replay (sent w) (requests_of w (o, w).2))).
    { intros o Ho. simpl. rewrite requests_of_refl. simpl.
      split; [done|]. intros Hex. by apply Exists_nil in Hex. }
    case_bool_decide; [|by apply Hnil].
    destruct (add_offset step p) as [p1|e] eqn:Hp1.
    2:{ apply Hnil. unfold add_offset in Hp1.
        destruct (p_offset p); [done|]. by inversion Hp1. }
    assert (Hone : ∀ o : outcome (list feature),
      o ≠ Raised ProviderConnectionError →
      status_code (remote (sent w) (data (self w)) p1) ≠ codes_bad →
      (o, after w p1).1 = Raised ProviderConnectionError
      ↔ Exists (λ r, status_code r = codes_bad)
               (replay (sent w) (requests_of w (o, after w p1).2))).
    { intros o Ho Hst. simpl. rewrite requests_of_after. simpl.
      split; [done|]. intros Hex.
      apply Exists_cons in Hex as [Hex|Hex]; [done|].
      by apply Exists_nil in Hex. }
    simpl. case_bool_decide as Hst.
    { simpl. rewrite requests_of_after. simpl. split; [|done].
      intros _. by left. }
    destruct (json _) as [resp|]; [|by apply Hone].
    destruct (translate _ _ _) as [page|e] eqn:Hpage.
    2:{ apply Hone; [|done].
        apply translate_errors in Hpage as [-> | [-> | ->]]; done. }
    case_bool_decide; [by apply Hone|].
    rewrite (IH p1 (v ++ page) (after w p1)).
    pose proof (fetch_more_frame fuel hits_ step skip p1 (v ++ page)
                  (after w p1)) as (_ & new & Hnew & _).
    rewrite (requests_of_app (after w p1) _ new Hnew).
    rewrite (requests_of_app w _ ((data (self w), p1) :: new)).
    2:{ rewrite Hnew. simpl. by rewrite <- app_assoc. }
    simpl. rewrite Exists_cons. split; [by right|].
    by intros [?|?].
Qed.

(** A response with status 400 anywhere in the call, and nothing else,
    ends [_load] with [ProviderConnectionError]: the features gathered
    so far are not returned. *)
Theorem load_connection_error_iff (fuel : nat) (offset limit : Z)
    (resulttype : string) (identifier : option string) (bbox : list pyfloat)
    (datetime_ : option string) (properties0 : list (string * value))
    (sortby : list sort_item) (select_properties : list string)
    (skip : bool) (q : option string) (w : world) :
  let r := _load fuel offset limit resulttype identifier bbox datetime_
                 properties0 sortby select_properties skip q w in
  r.1 = Raised ProviderConnectionError
  ↔ Exists (λ a, status_code a = codes_bad)
           (replay (sent w) (requests_of w r.2)).
Proof.
  intros r. subst r. rewrite load_step.
  destruct (load_params _ _ _ _ _ _ _ _ _) as [p4|e] eqn:Hp.
  2:{ simpl. rewrite requests_of_refl. simpl. split.
      - intros H. inversion H; subst.
        unfold load_params in Hp. destruct (given identifier); [done|].
        destruct (nonempty sortby); [|done].
        destruct (_make_orderby sortby) as [o|e''] eqn:Ho; [done|].
        simpl in Hp. inversion Hp; subst.
        unfold _make_orderby in Ho.
        destruct (orderby_comprehension sortby) as [[_ Hc]|[_ Hc]];
          rewrite Hc in Ho; simpl in Ho; [done|].
        by inversion Ho.
      - intros Hex. by apply Exists_nil in Hex. }
  assert (Hone : ∀ o : outcome feature_collection,
    o ≠ Raised ProviderConnectionError →
    status_code (remote (sent w) (data (self w)) p4) ≠ codes_bad →
    (o, after w p4).1 = Raised ProviderConnectionError
    ↔ Exists (λ a, status_code a = codes_bad)
             (replay (sent w) (requests_of w (o, after w p4).2))).
  { intros o Ho Hst. simpl. rewrite requests_of_after. simpl.
    split; [done|]. intros Hex.
    apply Exists_cons in Hex as [Hex|Hex]; [done|].
    by apply Exists_nil in Hex. }
  simpl. case_bool_decide as Hst.
  { simpl. rewrite requests_of_after. simpl. split; [|done].
    intros _. by left. }
  destruct (json _) as [resp|]; [|by apply Hone].
  case_bool_decide; [by apply Hone|].
  destruct (translate _ _ _) as [v|e] eqn:Hv.
  2:{ apply Hone; [|done].
      apply translate_errors in Hv as [-> | [-> | ->]]; done. }
  destruct (numFeatures (self w)) as [n|]; [|by apply Hone].
  pose proof (fetch_more_connection_error fuel (Z.min (r_limit resp) n)
                (len v) skip p4 v (after w p4)) as Hloop.
  pose proof (fetch_more_frame fuel (Z.min (r_limit resp) n) (len v) skip p4
                v (after w p4)) as (_ & new & Hnew & _).
  rewrite (requests_of_app (after w p4) _ new Hnew) in Hloop.
  assert (Hreq : requests_of w (fetch_more fuel (Z.min (r_limit resp) n)
                                  (len v) skip p4 v (after w p4)).2
                 = (data (self w), p4) :: new).
  { apply requests_of_app. rewrite Hnew. simpl. by rewrite <- app_assoc. }
  destruct (fetch_more _ _ _ _ _ _ _) as [[v'|e|] w']; simpl in *;
    rewrite Hreq; simpl; rewrite Exists_cons; rewrite <- Hloop.
  - split; [done|]. by intros [?|?].
  - split; [intros H'; right; congruence|].
    intros [?|?]; [done|congruence].
  - split; [done|]. by intros [?|?].
Qed.

(** ** How far the loop can overshoot *)

Lemma fetch_more_bound (c : Z) (fuel : nat) (hits_ step : Z) (skip : bool)
    (p : params) (v v' : list feature) (w : world) :
  (∀ h u q resp, json (remote h u q) = Some resp → len (r_records resp) ≤ c) →
  (fetch_more fuel hits_ step skip p v w).1 = Returned v' →
  len v' ≤ Z.max (len v) (hits_ - 1 + c).
Proof.
  intros Hc. revert p v w. induction fuel as [|fuel IH]; intros p v w;
    rewrite fetch_more_step.
  - case_bool_decide; simpl; [done|]. intros Hr; inversion Hr; subst. lia.
  - case_bool_decide as Hlt.
    2:{ simpl. intros Hr; inversion Hr; subst. lia. }
    destruct (add_offset step p) as [p1|e]; [|done].
    simpl. case_bool_decide; [done|].
    destruct (json _) as [resp|] eqn:Hj; [|done].
    destruct (translate _ _ _) as [page|e] eqn:Hpage; [|done].
    case_bool_decide.
    + simpl. intros Hr; inversion Hr; subst. lia.
    + intros Hr. apply IH in Hr. rewrite len_app in Hr.
      apply translate_length in Hpage. apply Hc in Hj. lia.
Qed.

(** When no response carries more than [c] rows, the collection of a
    query has at most [target - 1 + c] features, where [target] is the
    minimum of the limit the first response reports and the cached
    total (and at most [c] when the target is not positive): the loop
    goes past the target by less than one page. *)
Theorem query_overshoot_bound (c : Z) (fuel : nat) (offset limit : Z)
    (resulttype : string) (bbox : list pyfloat) (datetime_ : option string)
    (properties0 : list (string * value)) (sortby : list sort_item)
    (select_properties : list string) (skip : bool) (q : option string)
    (w w' : world) (fc : feature_collection) (p : params)
    (resp : result_body) (n : Z) :
  (∀ h u q' resp', json (remote h u q') = Some resp' →
                   len (r_records resp') ≤ c) →
  load_params (self w) offset limit resulttype None bbox properties0 sortby
              select_properties = Ok p →
  json (remote (sent w) (data (self w)) p) = Some resp →
  numFeatures (self w) = Some n →
  query fuel offset limit resulttype bbox datetime_ properties0 sortby
        select_properties skip q w = (Returned fc, w') →
  len (features fc) ≤ Z.max 0 (Z.min (r_limit resp) n - 1) + c.
Proof.
  intros Hc Hp Hj Hn. unfold query. rewrite load_step, Hp. simpl.
  case_bool_decide; [done|]. rewrite Hj.
  case_bool_decide.
  { intros Hr; inversion Hr; subst. simpl. unfold len. simpl.
    pose proof (Hc _ _ _ _ Hj). pose proof (len_nonneg (r_records resp)).
    lia. }
  destruct (translate _ _ _) as [v|e] eqn:Hv; [|done]. rewrite Hn.
  pose proof (fetch_more_bound c fuel (Z.min (r_limit resp) n) (len v) skip
                p v) as Hb.
  destruct (fetch_more _ _ _ _ _ _ _) as [[v'|e|] w1] eqn:Hloop; try done.
  intros Hr; inversion Hr; subst. simpl.
  specialize (Hb v' (after w p) Hc). rewrite Hloop in Hb.
  specialize (Hb eq_refl).
  apply translate_length in Hv. pose proof (Hc _ _ _ _ Hj).
  pose proof (len_nonneg v). lia.
Qed.

(** ** Paging over an honest remote *)

Lemma flat_map_nil {A B : Type} (g : A → list B) (l : list A) :
  Forall (λ x, g x = []) l → flat_map g l = [].
Proof. induction 1 as [|x l Hx _ IH]; simpl; [done|]. by rewrite Hx, IH. Qed.

Lemma full_pages {A : Type} (l : list A) (s m : nat) :
  flat_map (λ k, take s (drop (k * s) l)) (seq 0 m) = take (m * s) l.
Proof.
  induction m as [|m IH]; [done|].
  rewrite seq_S, flat_map_app, IH. simpl. rewrite app_nil_r.
  rewrite take_take_drop. f_equal. lia.
Qed.

(** Pages of at most [s] rows fetched at a stride equal to the size of
    the first page make up a run of the table without gap or repeat. *)
Lemma strided_pages {A : Type} (T : list A) (a s m : nat) :
  ∃ L, flat_map (λ k, take s (drop (a + k * length (take s (drop a T))) T))
                (seq 0 (S m))
       = take L (drop a T).
Proof.
  set (l := drop a T). set (st := length (take s l)).
  assert (Hdrop : ∀ k, drop (a + k * st) T = drop (k * st) l)
    by (intros k; unfold l; by rewrite drop_drop).
  rewrite (flat_map_ext _ (λ k, take s (drop (k * st) l)))
    by (intros k; by rewrite Hdrop).
  destruct (decide (st = s)) as [->|Hne].
  - exists (S m * s)%nat. apply full_pages.
  - assert (Hlen : length l = st ∧ (st < s)%nat).
    { unfold st in *. rewrite length_take in *. lia. }
    destruct Hlen as [Hlen Hlt].
    exists (length l). rewrite (take_ge l (length l)) by lia.
    change (seq 0 (S m)) with (0%nat :: seq 1 m). simpl.
    rewrite drop_0, (take_ge l s) by lia.
    rewrite flat_map_nil; [by rewrite app_nil_r|].
    apply Forall_forall. intros k Hk. apply list_elem_of_In, in_seq in Hk.
    rewrite drop_ge; [by rewrite take_nil|]. nia.
Qed.

Lemma honest_replay (table : list (gmap string value)) (cap : Z) (p : params)
    (o step : Z) (u : string) (h : list (string * params)) (ks : list nat) :
  honest_pager table cap → 0 ≤ o → 0 ≤ step →
  flat_map rows_of
    (replay h (map (λ k, (u, with_offset (o + Z.of_nat k * step) p)) ks))
  = flat_map (λ k, take (Z.to_nat (Z.min (p_limit p) cap))
                        (drop (Z.to_nat (o + Z.of_nat k * step)) table)) ks.
Proof.
  intros Hh Ho Hs. revert h. induction ks as [|k ks IH]; intros h; [done|].
  simpl. rewrite IH. f_equal.
  destruct (Hh h u (with_offset (o + Z.of_nat k * step) p)
               (o + Z.of_nat k * step) eq_refl) as (_ & resp & Hj & Hr);
    [nia|].
  unfold rows_of. by rewrite Hj, Hr.
Qed.

(** Against a remote that pages honestly over a table, the features a
    query returns in results mode are the translation of one run of
    consecutive rows of the table starting at the offset: the loop skips
    no row and fetches none twice, whatever the limit and the cap. *)
Theorem query_honest_pager_contiguous (table : list (gmap string value))
    (cap : Z) (fuel : nat) (offset limit : Z) (resulttype : string)
    (bbox : list pyfloat) (datetime_ : option string)
    (properties0 : list (string * value)) (sortby : list sort_item)
    (select_properties : list string) (skip : bool) (q : option string)
    (w w' : world) (fc : feature_collection) :
  honest_pager table cap →
  0 ≤ offset →
  resulttype ≠ "hits" →
  query fuel offset limit resulttype bbox datetime_ properties0 sortby
        select_properties skip q w = (Returned fc, w') →
  ∃ L, translate (self w) skip (take L (drop (Z.to_nat offset) table))
       = Ok (features fc).
Proof.
  intros Hh Hoff Hrt. unfold query. intros Hq.
  pose proof (load_rows _ _ _ _ _ _ _ _ _ _ _ _ _ _ _ Hrt Hq) as [Hrows _].
  destruct (load_params (self w) offset limit resulttype None bbox
              properties0 sortby select_properties) as [p4|e] eqn:Hp.
  2:{ rewrite load_step, Hp in Hq. done. }
  pose proof (load_params_clauses _ _ _ _ _ _ _ _ _ _ Hp) as (Ho & Hlim & _).
  destruct (Hh (sent w) (data (self w)) p4 offset Ho Hoff)
    as (Hst & resp & Hj & Hr).
  destruct (translate (self w) skip (r_records resp)) as [v|e] eqn:Hv.
  2:{ rewrite load_step, Hp in Hq. simpl in Hq.
      rewrite bool_decide_eq_false_2 in Hq by done. rewrite Hj in Hq.
      rewrite bool_decide_eq_false_2 in Hq by done. by rewrite Hv in Hq. }
  destruct (load_offsets fuel offset limit resulttype None bbox datetime_
              properties0 sortby select_properties skip None w p4 resp v
              Hp Hst Hj Hrt Hv) as [m Hm].
  rewrite Hq in Hm. change ((Returned fc, w').2) with w' in Hm.
  rewrite Hm in Hrows.
  rewrite (honest_replay table cap) in Hrows;
    [|done|done|apply len_nonneg].
  apply translate_length in Hv. rewrite Hr in Hv.
  destruct (strided_pages table (Z.to_nat offset)
              (Z.to_nat (Z.min (p_limit p4) cap)) m) as [L HL].
  exists L. rewrite <- HL, <- Hrows. f_equal.
  apply flat_map_ext. intros k. do 2 f_equal.
  rewrite Hv. unfold len. lia.
Qed.

End CKAN.

(** ** The provider on concrete remotes

    The closed statements below run the provider with floats restricted
    to integral values, sets enumerated by [elements], and the sample
    remotes. *)

#[local] Abbreviation run_query remote :=
  (query Z (λ z, z) integral_of_str integral_repr remote elements).
#[local] Abbreviation run_get remote :=
  (get Z (λ z, z) integral_of_str integral_repr remote elements).
#[local] Abbreviation run_load remote :=
  (_load Z (λ z, z) integral_of_str integral_repr remote elements).
#[local] Abbreviation start total := (World Z (sample_provider Z total) []).
#[local] Abbreviation echo := (λ l : Z, l).

(** C1.  A caller asks for 10 features of a table of 100 rows; the
    remote serves at most 7 rows per call and reports the requested
    limit.  The first page has 7 rows, fewer than the target of 10, so
    the loop fetches the page at offset 7 and appends all of its 7 rows:
    the collection has 14 features and [numberReturned] is 14, above the
    limit of 10. *)
Theorem query_returns_more_than_limit :
  ∃ fc w',
    run_query (paged_remote Z 7 100 echo) 5%nat 0 10 "results" [] None [] []
              [] false None (start 100) = (Returned fc, w')
    ∧ numberReturned Z fc = Some 14
    ∧ length (features Z fc) = 14%nat
    ∧ map (λ u, (p_offset u.2, p_limit u.2)) (sent Z w')
      = [(Some 0, 10); (Some 7, 10)]
    ∧ 10 < 14.
Proof.
  eexists _, _. split; [vm_compute; reflexivity|]. vm_compute.
  split_and!; done.
Qed.

(** C2.  The row of the specification, translated with the geometry
    skipped: the geometry is null and the id is gone, but the two
    coordinate fields are still among the properties. *)
Theorem make_feature_skip_keeps_coordinates :
  ∃ ft,
    make_feature Z (λ z, z) integral_of_str (sample_provider Z 1)
      (<["id" := VInt Z 5]> (<["x" := VStr Z "1.5"]> (<["y" := VStr Z "2.5"]>
         (<["name" := VStr Z "foo"]> ∅)))) true = Ok ft
    ∧ f_geometry Z ft = None
    ∧ f_properties Z ft !! "id" = None
    ∧ f_properties Z ft !! "x" = Some (VStr Z "1.5")
    ∧ f_properties Z ft !! "y" = Some (VStr Z "2.5")
    ∧ f_properties Z ft !! "name" = Some (VStr Z "foo").
Proof.
  eexists. split; [vm_compute; reflexivity|]. vm_compute. split_and!; done.
Qed.

(** With the geometry built, the same row gives the feature of the
    specification (with integral coordinates). *)
Example make_feature_sample :
  ∃ ft,
    make_feature Z (λ z, z) integral_of_str (sample_provider Z 1)
                 (sample_row Z 5) false = Ok ft
    ∧ f_id Z ft = VInt Z 5
    ∧ f_geometry Z ft = Some (Geometry Z "Point" [3; 4])
    ∧ f_properties Z ft = <["name" := VStr Z "foo"]> ∅.
Proof.
  eexists. split; [vm_compute; reflexivity|]. vm_compute. split_and!; done.
Qed.

(** The filters of the specification, character by character: two
    fields in the order of insertion, and a repeated field, which keeps
    its place and takes the last value. *)
Example make_where_sample :
  _make_where Z integral_repr [("a", VInt Z 1); ("b", VInt Z 2)] []
  = "{" +:+ quote_mark +:+ "a" +:+ quote_mark +:+ ": 1, "
        +:+ quote_mark +:+ "b" +:+ quote_mark +:+ ": 2}"
  ∧ _make_where Z integral_repr
      [("a", VInt Z 1); ("b", VInt Z 2); ("a", VStr Z "z")] []
    = "{" +:+ quote_mark +:+ "a" +:+ quote_mark +:+ ": "
          +:+ quote_mark +:+ "z" +:+ quote_mark +:+ ", "
          +:+ quote_mark +:+ "b" +:+ quote_mark +:+ ": 2}".
Proof. by vm_compute. Qed.

(** The text of an integral float is the text of a float. *)
Lemma uint_of_string_point (s : string) :
  NilEmpty.uint_of_string (s +:+ ".0") = None.
Proof.
  induction s as [|a s IH]; [reflexivity|].
  rewrite string_app_cons. simpl. by rewrite IH.
Qed.

Lemma integral_repr_float_token (z : Z) :
  float_token (integral_repr z) = true.
Proof.
  unfold float_token, integral_repr.
  destruct (str_of_int_token z) as (Hc & Hne & _).
  assert (Hf : string_forall float_char (str_of_int z +:+ ".0") = true).
  { rewrite string_forall_app. apply andb_true_iff. split; [|reflexivity].
    eapply string_forall_impl; [|exact Hc].
    intros c H. by apply int_char_token in H as [_ ?]. }
  rewrite Hf. destruct (str_of_int z) as [|a s]; [done|].
  rewrite string_app_cons. unfold NilZero.int_of_string.
  destruct (Ascii.eqb a "-").
  - unfold NilZero.uint_of_string. destruct s as [|b s]; [reflexivity|].
    rewrite <- string_app_cons. by rewrite uint_of_string_point.
  - unfold NilZero.uint_of_string. rewrite <- string_app_cons.
    by rewrite uint_of_string_point.
Qed.

Lemma make_where_builds_filter_witness :
  (∀ z, float_token (integral_repr z) = true)
  ∧ _make_where Z integral_repr
      [("a", VInt Z 1); ("q", VStr Z sample_text); ("f", VFloat Z 3);
       ("a", VStr Z "z"); ("n", VNone Z); ("t", VBool Z true)] []
    = "{" +:+ quote_mark +:+ "a" +:+ quote_mark +:+ ": "
          +:+ quote_mark +:+ "z" +:+ quote_mark +:+ ", "
          +:+ quote_mark +:+ "q" +:+ quote_mark +:+ ": "
          +:+ quote_mark +:+ sample_text_escaped +:+ quote_mark +:+ ", "
          +:+ quote_mark +:+ "f" +:+ quote_mark +:+ ": 3.0, "
          +:+ quote_mark +:+ "n" +:+ quote_mark +:+ ": null, "
          +:+ quote_mark +:+ "t" +:+ quote_mark +:+ ": true}"
  ∧ json_loads
      (_make_where Z integral_repr
         [("a", VInt Z 1); ("q", VStr Z sample_text); ("f", VFloat Z 3);
          ("a", VStr Z "z"); ("n", VNone Z); ("t", VBool Z true)] [])
    = Some [("a", JStr "z"); ("q", JStr sample_text); ("f", JFloat "3.0");
            ("n", JNull); ("t", JBool true)]
  ∧ string_forall printable
      (_make_where Z integral_repr
         [("a", VInt Z 1); ("q", VStr Z sample_text); ("f", VFloat Z 3);
          ("a", VStr Z "z"); ("n", VNone Z); ("t", VBool Z true)] [])
    = true.
Proof.
  split; [exact integral_repr_float_token|].
  destruct (make_where_builds_filter Z integral_repr
              [("a", VInt Z 1); ("q", VStr Z sample_text); ("f", VFloat Z 3);
               ("a", VStr Z "z"); ("n", VNone Z); ("t", VBool Z true)] [])
    as (H1 & _ & H3).
  destruct (H3 integral_repr_float_token) as [H4 H5].
  split_and!.
  - rewrite H1. vm_compute. reflexivity.
  - rewrite H4. vm_compute. reflexivity.
  - exact H5.
Defined.

Lemma make_orderby_tokens_witness :
  Forall direction [SortItem "x" "+"; SortItem "y" "-"]
  ∧ _make_orderby [SortItem "x" "+"; SortItem "y" "-"] = Ok "x asc,y desc".
Proof.
  assert (H : Forall direction [SortItem "x" "+"; SortItem "y" "-"]).
  { constructor; [by left|]. constructor; [by right|]. constructor. }
  split; [exact H|]. exact (make_orderby_tokens _ H).
Defined.

Lemma query_counters_witness :
  run_query (paged_remote Z 100 50 echo) 0%nat 0 10 "hits" [] None [] [] []
            false None (start 50)
  = (Returned (FeatureCollection Z "FeatureCollection" [] (Some 50) None),
     World Z (sample_provider Z 50)
       [(data Z (sample_provider Z 50),
         Params (Some 0) 10 "resource-1" None None (Some "true") None)]).
Proof.
  pose proof (query_counters Z (λ z, z) integral_of_str integral_repr
                (paged_remote Z 100 50 echo) elements 0%nat 0 10 "hits" []
                None [] [] [] false None (start 50)) as (H & _).
  destruct (H eq_refl) as [_ H'].
  apply (H' (Params (Some 0) 10 "resource-1" None None (Some "true") None)
            (ResultBody Z (sample_descriptors Z) 50 10 (sample_rows Z 0 10))).
  - reflexivity.
  - vm_compute. discriminate.
  - reflexivity.
Defined.

Lemma query_filters_ignore_bbox_witness :
  (data Z (sample_provider Z 50),
   Params (Some 0) 10 "resource-1" None
     (Some ("{" +:+ json_string "name" +:+ ": " +:+ json_string "foo" +:+ "}"))
     None None)
    ∈ requests_of Z (start 50)
        (run_query (paged_remote Z 100 50 echo) 1%nat 0 10 "results" [] None
                   [("name", VStr Z "foo")] [] [] false None (start 50)).2
  ∧ (data Z (sample_provider Z 50),
     Params (Some 0) 10 "resource-1" None
       (Some ("{" +:+ json_string "name" +:+ ": " +:+ json_string "foo" +:+ "}"))
       None None)
      ∈ requests_of Z (start 50)
          (run_query (paged_remote Z 100 50 echo) 1%nat 0 10 "results"
                     [1; 2; 3; 4] None [("name", VStr Z "foo")] [] [] false
                     None (start 50)).2
  ∧ "{" +:+ json_string "name" +:+ ": " +:+ json_string "foo" +:+ "}"
    = _make_where Z integral_repr [("name", VStr Z "foo")] [].
Proof.
  pose proof (query_filters_ignore_bbox Z (λ z, z) integral_of_str
                integral_repr (paged_remote Z 100 50 echo) elements 1%nat 0 10
                "results" [] None [("name", VStr Z "foo")] [] [] false None
                (start 50)) as [_ H].
  assert (H1 :
    (data Z (sample_provider Z 50),
     Params (Some 0) 10 "resource-1" None
       (Some ("{" +:+ json_string "name" +:+ ": " +:+ json_string "foo" +:+ "}"))
       None None)
      ∈ requests_of Z (start 50)
          (run_query (paged_remote Z 100 50 echo) 1%nat 0 10 "results" [] None
                     [("name", VStr Z "foo")] [] [] false None (start 50)).2).
  { vm_compute. left. }
  assert (H2 :
    (data Z (sample_provider Z 50),
     Params (Some 0) 10 "resource-1" None
       (Some ("{" +:+ json_string "name" +:+ ": " +:+ json_string "foo" +:+ "}"))
       None None)
      ∈ requests_of Z (start 50)
          (run_query (paged_remote Z 100 50 echo) 1%nat 0 10 "results"
                     [1; 2; 3; 4] None [("name", VStr Z "foo")] [] [] false
                     None (start 50)).2).
  { vm_compute. left. }
  split; [exact H1|]. split; [exact H2|].
  exact (proj2 (H [1; 2; 3; 4] (start 50) _ _ _ _ H1 H2 eq_refl eq_refl)).
Defined.


Lemma load_loop_terminates_witness :
  (run_load (paged_remote Z 7 100 echo) 3%nat 0 10 "results" None [] None []
            [] [] false None (start 100)).1 ≠ OutOfFuel.
Proof.
  pose proof (load_loop_terminates Z (λ z, z) integral_of_str integral_repr
                (paged_remote Z 7 100 echo) elements 0 10 "results" None []
                None [] [] [] false None (start 100)) as (_ & H & _).
  edestruct (H 3%nat) as (Hfuel & _).
  - vm_compute. reflexivity.
  - vm_compute. discriminate.
  - vm_compute. reflexivity.
  - discriminate.
  - vm_compute. reflexivity.
  - reflexivity.
  - apply Hfuel. vm_compute. discriminate.
Defined.

Lemma get_missing_or_single_witness :
  (run_get (paged_remote Z 100 0 echo) 1%nat "42" (start 50)).1
  = Raised IndexError
  ∧ ∃ ft, (run_get (paged_remote Z 100 1 echo) 1%nat "0" (start 50)).1
          = Returned ft
          ∧ f_id Z ft = VInt Z 0.
Proof.
  split.
  - eapply (get_missing_or_single Z (λ z, z) integral_of_str integral_repr
              (paged_remote Z 100 0 echo) elements 1%nat "42" (start 50)).
    + lia.
    + reflexivity.
    + vm_compute. reflexivity.
    + intros h q _. split; [vm_compute; discriminate|].
      eexists. split; [reflexivity|]. simpl.
      replace (Z.to_nat _) with 0%nat by lia. reflexivity.
  - eexists. split.
    + eapply (get_missing_or_single Z (λ z, z) integral_of_str integral_repr
                (paged_remote Z 100 1 echo) elements 1%nat "0" (start 50)).
      * lia.
      * reflexivity.
      * vm_compute. reflexivity.
      * vm_compute. discriminate.
      * vm_compute. reflexivity.
      * reflexivity.
      * vm_compute. reflexivity.
      * intros h q (Hl & _) Ho. split; [vm_compute; discriminate|].
        eexists. split; [reflexivity|]. simpl. rewrite Ho, Hl. reflexivity.
    + reflexivity.
Defined.

Lemma query_limit_zero_witness :
  run_query (paged_remote Z 100 50 echo) 1%nat 0 0 "results" [] None [] [] []
            false None (start 50)
  = (Returned (FeatureCollection Z "FeatureCollection" [] None (Some 0)),
     World Z (sample_provider Z 50)
       [(data Z (sample_provider Z 50),
         Params (Some 0) 0 "resource-1" None None None None)])
  ∧ run_query (paged_remote Z 100 50 (λ _, 100)) 1%nat 0 0 "results" [] None
              [] [] [] false None (start 50)
    = (Returned (FeatureCollection Z "FeatureCollection" [] None (Some 0)),
       World Z (sample_provider Z 50)
         [(data Z (sample_provider Z 50),
           Params (Some 0) 0 "resource-1" None None None None);
          (data Z (sample_provider Z 50),
           Params (Some 0) 0 "resource-1" None None None None)]).
Proof.
  assert (Hh : ∀ reported,
    honours_limit Z (paged_remote Z 100 50 reported)).
  { intros reported h u p. split; [vm_compute; discriminate|].
    eexists. split; [reflexivity|]. simpl.
    unfold len, sample_rows. rewrite length_map, length_seq. lia. }
  split.
  - destruct (query_limit_zero Z (λ z, z) integral_of_str integral_repr
                (paged_remote Z 100 50 echo) elements 1%nat 0 "results" []
                None [] [] [] false None (start 50)
                (Params (Some 0) 0 "resource-1" None None None None) 50)
      as (resp & Hj & Hq); [discriminate|lia|reflexivity|reflexivity|apply Hh|].
    vm_compute in Hj. inversion Hj; subst. exact Hq.
  - destruct (query_limit_zero Z (λ z, z) integral_of_str integral_repr
                (paged_remote Z 100 50 (λ _, 100)) elements 1%nat 0 "results"
                [] None [] [] [] false None (start 50)
                (Params (Some 0) 0 "resource-1" None None None None) 50)
      as (resp & Hj & Hq); [discriminate|lia|reflexivity|reflexivity|apply Hh|].
    vm_compute in Hj. inversion Hj; subst. exact Hq.
Defined.

(** C6, as stated, fails.  The remote holds 50 rows, honours a limit of 0
    with an empty page and reports its own cap of 100 as the limit: the
    target is 50, the empty first page is below it, and the loop sends a
    second request before the empty page ends it. *)
Lemma limit_zero_pages_again :
  ¬ (∃ fc,
       (run_query (paged_remote Z 100 50 (λ _, 100)) 5%nat 0 0 "results" []
                  None [] [] [] false None (start 50)).1 = Returned fc
       ∧ features Z fc = []
       ∧ length (requests_of Z (start 50)
                   (run_query (paged_remote Z 100 50 (λ _, 100)) 5%nat 0 0
                              "results" [] None [] [] [] false None
                              (start 50)).2) = 1%nat).
Proof. intros (fc & _ & _ & H). vm_compute in H. discriminate. Qed.

(** ** The further properties on concrete inputs *)

#[local] Abbreviation sample_feature :=
  (Feature Z "Feature" (VInt Z 5) (Some (Geometry Z "Point" [3; 4]))
           (<["name" := VStr Z "foo"]> ∅)).
#[local] Abbreviation sample_translation :=
  (make_feature Z (λ z, z) integral_of_str (sample_provider Z 1)
                (sample_row Z 5) false = Ok sample_feature).

Lemma query_unknown_direction_witness :
  run_query (paged_remote Z 100 50 echo) 1%nat 0 10 "results" [] None []
            [SortItem "x" "*"] [] false None (start 50)
  = (Raised KeyError, start 50).
Proof.
  apply (query_unknown_direction_sends_nothing Z (λ z, z) integral_of_str
           integral_repr (paged_remote Z 100 50 echo) elements).
  intros H. inversion H as [|? ? [?|?] ?]; discriminate.
Defined.

Lemma make_feature_keeps_other_fields_witness :
  sample_translation
  ∧ sample_row Z 5 !! "name" = Some (VStr Z "foo")
  ∧ f_properties Z sample_feature !! "name" = sample_row Z 5 !! "name".
Proof.
  assert (H : sample_translation) by (vm_compute; reflexivity).
  split; [exact H|]. split; [reflexivity|].
  destruct (make_feature_keeps_other_fields Z (λ z, z) integral_of_str
              (sample_provider Z 1) (sample_row Z 5) false sample_feature H)
    as (_ & _ & Hk).
  apply Hk; discriminate.
Defined.

Lemma make_feature_shared_field_witness :
  ∃ e, make_feature Z (λ z, z) integral_of_str
         (Provider Z "url" "id" "id" "y" "resource-1" (AsList []) ∅ None)
         (sample_row Z 5) false = Err e.
Proof.
  apply (make_feature_shared_field_fails Z (λ z, z) integral_of_str).
  left. reflexivity.
Defined.

Lemma make_feature_drops_id_witness :
  sample_translation ∧ f_properties Z sample_feature !! "id" = None.
Proof.
  assert (H : sample_translation) by (vm_compute; reflexivity).
  split; [exact H|].
  exact (make_feature_drops_id Z (λ z, z) integral_of_str
           (sample_provider Z 1) (sample_row Z 5) false sample_feature H).
Defined.

Lemma make_feature_drops_coordinates_witness :
  sample_translation
  ∧ f_properties Z sample_feature !! "x" = None
  ∧ f_properties Z sample_feature !! "y" = None.
Proof.
  assert (H : sample_translation) by (vm_compute; reflexivity).
  split; [exact H|].
  exact (make_feature_drops_coordinates Z (λ z, z) integral_of_str
           (sample_provider Z 1) (sample_row Z 5) sample_feature H).
Defined.

#[local] Abbreviation unfetched :=
  (World Z (unfetched_provider Z ["name"]) []).
#[local] Abbreviation discover remote :=
  (get_fields Z remote elements).
#[local] Abbreviation sample_body :=
  (ResultBody Z (sample_descriptors Z) 50 1 (sample_rows Z 0 1)).

Lemma get_fields_discovers_witness :
  fields Z (self Z (discover (constant_remote Z (sample_discovery Z))
                             unfetched).2)
  = fields_of Z (sample_descriptors Z)
  ∧ numFeatures Z (self Z (discover (constant_remote Z (sample_discovery Z))
                                    unfetched).2)
    = Some 50.
Proof.
  destruct (get_fields_discovers Z (constant_remote Z (sample_discovery Z))
              elements unfetched sample_body eq_refl (λ _, eq_refl))
    as (p & _ & Hf & Hn & _).
  split; [exact Hf|exact Hn].
Defined.

Lemma get_fields_bad_body_witness :
  (discover (constant_remote Z (Response Z 200 None)) unfetched).1
  = Raised ProviderQueryError.
Proof.
  exact (proj1 (get_fields_bad_body Z (constant_remote Z (Response Z 200 None))
                  elements unfetched eq_refl (λ _, eq_refl))).
Defined.

Lemma get_fields_once_witness :
  discover (constant_remote Z (sample_discovery Z))
           (discover (constant_remote Z (sample_discovery Z)) unfetched).2
  = (Returned (fields_of Z (sample_descriptors Z)),
     (discover (constant_remote Z (sample_discovery Z)) unfetched).2).
Proof.
  apply (get_fields_once Z (constant_remote Z (sample_discovery Z)) elements
           unfetched sample_body eq_refl (λ _, eq_refl)).
  discriminate.
Defined.

Lemma get_fields_empty_schema_witness :
  length
    (requests_of Z unfetched
       (discover (constant_remote Z
                    (Response Z 200 (Some (ResultBody Z [] 50 1 []))))
          (discover (constant_remote Z
                       (Response Z 200 (Some (ResultBody Z [] 50 1 []))))
                    unfetched).2).2)
  = 2%nat.
Proof.
  exact (get_fields_empty_schema_refetches Z
           (constant_remote Z (Response Z 200 (Some (ResultBody Z [] 50 1 []))))
           elements unfetched (ResultBody Z [] 50 1 []) eq_refl
           (λ _ _, eq_refl) eq_refl).
Defined.

#[local] Abbreviation capped := (table_remote Z (sample_rows Z 0 100) 7).

Lemma capped_is_honest :
  honest_pager Z capped (sample_rows Z 0 100) 7.
Proof.
  intros h u p o Ho _. unfold table_remote. simpl.
  split; [discriminate|]. eexists. split; [reflexivity|].
  simpl. by rewrite Ho.
Qed.

Lemma load_offsets_stride_witness :
  ∃ m,
    map (λ u, p_offset u.2)
        (requests_of Z (start 100)
           (run_load capped 5%nat 0 10 "results" None [] None [] [] [] false
                     None (start 100)).2)
    = map (λ k, Some (0 + Z.of_nat k * 7)) (seq 0 (S m)).
Proof.
  edestruct (load_offsets_stride Z (λ z, z) integral_of_str integral_repr
               capped elements 5%nat 0 10 "results" None [] None [] [] []
               false None (start 100)) as [m Hm].
  - vm_compute. reflexivity.
  - vm_compute. discriminate.
  - vm_compute. reflexivity.
  - discriminate.
  - vm_compute. reflexivity.
  - exists m. rewrite Hm, map_map. apply map_ext. intros k. reflexivity.
Defined.

Lemma query_translates_every_row_witness :
  ∃ fc w',
    run_query capped 5%nat 0 10 "results" [] None [] [] [] false None
              (start 100) = (Returned fc, w')
    ∧ numberReturned Z fc
      = Some (len (flat_map (rows_of Z)
                     (replay Z capped (sent Z (start 100))
                        (requests_of Z (start 100) w')))).
Proof.
  eexists _, _. split; [vm_compute; reflexivity|].
  eapply (query_translates_every_row Z (λ z, z) integral_of_str integral_repr
            capped elements 5%nat 0 10 "results" [] None [] [] [] false None
            (start 100)).
  - discriminate.
  - vm_compute. reflexivity.
Defined.

Lemma get_returns_last_row_witness :
  ∃ ft w',
    run_get (paged_remote Z 100 3 echo) 5%nat "2" (start 50)
    = (Returned ft, w')
    ∧ ∃ rows row,
        flat_map (rows_of Z)
          (replay Z (paged_remote Z 100 3 echo) (sent Z (start 50))
             (requests_of Z (start 50) w'))
        = rows ++ [row]
        ∧ make_feature Z (λ z, z) integral_of_str (sample_provider Z 50) row
                       false = Ok ft.
Proof.
  eexists _, _. split; [vm_compute; reflexivity|].
  eapply (get_returns_last_row Z (λ z, z) integral_of_str integral_repr
            (paged_remote Z 100 3 echo) elements 5%nat "2" (start 50)).
  vm_compute. reflexivity.
Defined.

Lemma query_error_kinds_witness :
  run_query (constant_remote Z (Response Z 200 None)) 1%nat 0 10 "results" []
            None [] [] [] false None (start 50)
  = (Raised JSONDecodeError,
     after Z (start 50) (Params (Some 0) 10 "resource-1" None None None None)).
Proof.
  apply (query_error_kinds Z (λ z, z) integral_of_str integral_repr
           (constant_remote Z (Response Z 200 None)) elements 1%nat 0 10
           "results" [] None [] [] [] false None (start 50)).
  - reflexivity.
  - vm_compute. discriminate.
  - reflexivity.
Defined.

Lemma query_overshoot_bound_witness :
  ∃ fc w',
    run_query capped 5%nat 0 10 "results" [] None [] [] [] false None
              (start 100) = (Returned fc, w')
    ∧ len (features Z fc) ≤ Z.max 0 (Z.min 10 100 - 1) + 7.
Proof.
  eexists _, _. split; [vm_compute; reflexivity|].
  eapply (query_overshoot_bound Z (λ z, z) integral_of_str integral_repr
            capped elements 7 5%nat 0 10 "results" [] None [] [] [] false
            None (start 100) _ _
            (Params (Some 0) 10 "resource-1" None None None None)
            (ResultBody Z (sample_descriptors Z) 100 10 (sample_rows Z 0 7))
            100).
  - intros h u q resp Hj. unfold table_remote in Hj. simpl in Hj.
    inversion Hj; subst. unfold len. simpl. rewrite length_take. lia.
  - reflexivity.
  - vm_compute. reflexivity.
  - reflexivity.
  - vm_compute. reflexivity.
Defined.

Lemma query_honest_pager_contiguous_witness :
  ∃ fc w' L,
    run_query capped 5%nat 0 10 "results" [] None [] [] [] false None
              (start 100) = (Returned fc, w')
    ∧ translate Z (λ z, z) integral_of_str (sample_provider Z 100) false
        (take L (drop (Z.to_nat 0) (sample_rows Z 0 100)))
      = Ok (features Z fc).
Proof.
  assert (H : ∃ fc w',
    run_query capped 5%nat 0 10 "results" [] None [] [] [] false None
              (start 100) = (Returned fc, w')).
  { eexists _, _. vm_compute. reflexivity. }
  destruct H as (fc & w' & H).
  destruct (query_honest_pager_contiguous Z (λ z, z) integral_of_str
              integral_repr capped elements (sample_rows Z 0 100) 7 5%nat 0
              10 "results" [] None [] [] [] false None (start 100) w' fc
              capped_is_honest) as [L HL]; [lia|discriminate|exact H|].
  by exists fc, w', L.
Defined.
